(** * Minesweeper presentation layer (run.py): session clock, highlight set,
      input mapping and difficulty switching.

    The development embeds [InputController] and [Game] of run.py as pure
    functions on an explicit [Game] state.  Every call of
    [pygame.time.get_ticks()] becomes an explicit integer argument (the
    reading the call returned), and the event queue drained by
    [pygame.event.get()] becomes an explicit list. *)

From stdpp Require Import base gmap list strings pretty.
From Stdlib Require Import ZArith Lia ZifyBool.

Local Open Scope Z_scope.

(** ** The [config] module

    run.py reads its layout constants from the module [config] and writes
    six of its attributes in [Game.set_difficulty].  The whole module is one
    record carried by the state; the attributes run.py never assigns keep the
    value they had when the program started. *)
Module config.

Record t : Type := mk {
  cols : Z;
  rows : Z;
  num_mines : Z;
  width : Z;
  height : Z;
  display_dimension : Z * Z;
  margin_left : Z;
  margin_top : Z;
  margin_right : Z;
  margin_bottom : Z;
  cell_size : Z;
  highlight_duration_ms : Z;
  mouse_left : Z;
  mouse_right : Z;
  mouse_middle : Z
}.

(** The six assignments at the top of [Game.set_difficulty], in order:
    the width and height are computed from the freshly assigned [cols]
    and [rows]. *)
Definition set_difficulty (c : t) (cols' rows' mines' : Z) : t :=
  let w := margin_left c + cols' * cell_size c + margin_right c in
  let h := margin_top c + rows' * cell_size c + margin_bottom c in
  {| cols := cols'; rows := rows'; num_mines := mines';
     width := w; height := h; display_dimension := (w, h);
     margin_left := margin_left c; margin_top := margin_top c;
     margin_right := margin_right c; margin_bottom := margin_bottom c;
     cell_size := cell_size c;
     highlight_duration_ms := highlight_duration_ms c;
     mouse_left := mouse_left c; mouse_right := mouse_right c;
     mouse_middle := mouse_middle c |}.

(** The three mouse buttons are told apart by the [if]/[elif] chain of
    [handle_mouse]; the chain distinguishes them when the three constants
    differ. *)
Definition buttons_distinct (c : t) : Prop :=
  mouse_left c ≠ mouse_right c ∧
  mouse_left c ≠ mouse_middle c ∧
  mouse_right c ≠ mouse_middle c.

(** The window size agrees with the grid extent, as [set_difficulty]
    computes it. *)
Definition geometry_ok (c : t) : Prop :=
  0 < cell_size c ∧
  width c = margin_left c + cols c * cell_size c + margin_right c ∧
  height c = margin_top c + rows c * cell_size c + margin_bottom c.

End config.

(** ** The grid model, [components.Board] *)

(** [board.cells[board.index(col, row)].state] *)
Record CellState : Type := {
  is_revealed : bool;
  is_mine : bool;
  is_flagged : bool;
  adjacent : Z
}.

(** Modelled from the spec: the class [components.Board], which run.py
    imports; only its use is in the source.  The interface has the
    constructor [Board(cols, rows, mines)], the attributes [cols], [rows],
    [game_over] and [win], the cell lookup, the two mutating methods
    [reveal] and [toggle_flag] (a mutation returns the board after the call)
    and the three queries [neighbors], [flagged_count] and
    [get_hint_coordinates] (the last answers [None] or a coordinate). *)
Class BoardModel (Board : Type) : Type := {
  Board_new : Z → Z → Z → Board;
  board_cols : Board → Z;
  board_rows : Board → Z;
  game_over : Board → bool;
  win : Board → bool;
  cell_state : Board → Z → Z → CellState;
  reveal : Board → Z → Z → Board;
  toggle_flag : Board → Z → Z → Board;
  neighbors : Board → Z → Z → list (Z * Z);
  flagged_count : Board → Z;
  get_hint_coordinates : Board → option (Z * Z)
}.

(** Modelled from the spec: the part of the [components.Board] contract
    about its dimensions.  The constructor records the dimensions it was
    given and they are read-only afterwards. *)
Class BoardDims (Board : Type) `{BoardModel Board} : Prop := {
  Board_new_cols : ∀ c r m, board_cols (Board_new c r m) = c;
  Board_new_rows : ∀ c r m, board_rows (Board_new c r m) = r;
  reveal_cols : ∀ b c r, board_cols (reveal b c r) = board_cols b;
  reveal_rows : ∀ b c r, board_rows (reveal b c r) = board_rows b;
  toggle_flag_cols : ∀ b c r, board_cols (toggle_flag b c r) = board_cols b;
  toggle_flag_rows : ∀ b c r, board_rows (toggle_flag b c r) = board_rows b
}.

(** ** Events *)

Inductive Key : Type := K_r | K_1 | K_2 | K_3 | K_h | K_other.

Inductive Event : Type :=
  | QUIT
  | KEYDOWN (key : Key)
  | MOUSEBUTTONDOWN (pos : Z * Z) (button : Z)
  | OTHER.

(** ** What one frame shows *)

(** The picture [Renderer.draw_cell] paints for one cell. *)
Inductive CellDraw : Type :=
  | RevealedMine
  | RevealedNumber (n : Z)
  | RevealedBlank
  | HiddenCell (highlight : bool) (flag : bool).

Record Frame : Type := {
  header_mines : Z;
  header_time : string;
  header_difficulty : string;
  frame_cells : list (Z * Z * CellDraw);
  frame_overlay : option string
}.

(** The readings of the clock taken while one frame is drawn: at the expiry
    test that opens [Game.draw], inside [_elapsed_ms] (read only while the
    timer runs) and at the assignment of [now] before the cell loop. *)
Record DrawTicks : Type := {
  at_expiry : Z;
  at_elapsed : Z;
  at_cells : Z
}.

(** The input of one [run_step]: the drained events, each with the clock
    reading available to its handler, the reading at the end check and the
    readings of [draw]. *)
Record FrameInput : Type := {
  events : list (Z * Event);
  at_end_check : Z;
  at_draw : DrawTicks
}.

(** ** The program as a sequence of actions

    One [run_step] handles the drained events in order, then runs the end
    check, then draws.  An action is one of these three kinds of step. *)
Inductive Action : Type :=
  | Handle (now : Z) (e : Event)
  | EndCheck (now : Z)
  | Draw (t : DrawTicks).

(** The events after which a new session begins: [reset] and the three
    difficulty keys. *)
Definition resets (e : Event) : bool :=
  match e with
  | KEYDOWN (K_r | K_1 | K_2 | K_3) => true
  | _ => false
  end.

(** The actions that stay inside the running session. *)
Definition in_session (a : Action) : bool :=
  match a with
  | Handle _ e => negb (resets e)
  | _ => true
  end.


(** The actions of the event loop of one [run_step], and whether the loop
    reached the end of the queue. *)
Fixpoint event_actions (evs : list (Z * Event)) : bool * list Action :=
  match evs with
  | [] => (true, [])
  | (_, QUIT) :: _ => (false, [])
  | (now, e) :: rest =>
      let '(running, l) := event_actions rest in (running, Handle now e :: l)
  end.

Definition frame_actions (i : FrameInput) : list Action :=
  let '(running, l) := event_actions (events i) in
  if running then l ++ [EndCheck (at_end_check i); Draw (at_draw i)] else l.

(** The frames whose events stay inside the running session. *)
Definition session_frame (i : FrameInput) : bool :=
  forallb (λ p : Z * Event, negb (resets p.2)) (events i).

(** The actions of the loop of [main]: those of each frame, up to and
    including the frame whose event loop meets QUIT. *)
Fixpoint loop_actions (frames : list FrameInput) : list Action :=
  match frames with
  | [] => []
  | i :: rest =>
      if (event_actions (events i)).1
      then frame_actions i ++ loop_actions rest
      else frame_actions i
  end.

Section Game.

Context {Board : Type} `{BM : BoardModel Board}.

(** ** The [Game] object

    [Renderer.board] is assigned together with [Game.board] (in
    [__init__] and in [reset]) and names the same object, so the state
    keeps one board.  [screen] is the display surface, kept as the
    dimensions [pygame.display.set_mode] was last called with. *)
Record Game : Type := mkGame {
  cfg : config.t;
  screen : Z * Z;
  board : Board;
  highlight_targets : gset (Z * Z);
  highlight_until_ms : Z;
  started : bool;
  start_ticks_ms : Z;
  end_ticks_ms : Z
}.

Definition set_board (g : Game) (b : Board) : Game :=
  mkGame (cfg g) (screen g) b (highlight_targets g) (highlight_until_ms g)
         (started g) (start_ticks_ms g) (end_ticks_ms g).

Definition set_highlight_targets (g : Game) (s : gset (Z * Z)) : Game :=
  mkGame (cfg g) (screen g) (board g) s (highlight_until_ms g)
         (started g) (start_ticks_ms g) (end_ticks_ms g).

Definition set_highlight_until_ms (g : Game) (t : Z) : Game :=
  mkGame (cfg g) (screen g) (board g) (highlight_targets g) t
         (started g) (start_ticks_ms g) (end_ticks_ms g).

Definition set_started (g : Game) (b : bool) : Game :=
  mkGame (cfg g) (screen g) (board g) (highlight_targets g)
         (highlight_until_ms g) b (start_ticks_ms g) (end_ticks_ms g).

Definition set_start_ticks_ms (g : Game) (t : Z) : Game :=
  mkGame (cfg g) (screen g) (board g) (highlight_targets g)
         (highlight_until_ms g) (started g) t (end_ticks_ms g).

Definition set_end_ticks_ms (g : Game) (t : Z) : Game :=
  mkGame (cfg g) (screen g) (board g) (highlight_targets g)
         (highlight_until_ms g) (started g) (start_ticks_ms g) t.

(** [Game.__init__], from the configuration the program starts with. *)
Definition Game_init (c : config.t) : Game :=
  {| cfg := c;
     screen := config.display_dimension c;
     board := Board_new (config.cols c) (config.rows c) (config.num_mines c);
     highlight_targets := ∅;
     highlight_until_ms := 0;
     started := false;
     start_ticks_ms := 0;
     end_ticks_ms := 0 |}.

(** [Game.reset] *)
Definition reset (g : Game) : Game :=
  {| cfg := cfg g;
     screen := screen g;
     board := Board_new (config.cols (cfg g)) (config.rows (cfg g))
                        (config.num_mines (cfg g));
     highlight_targets := ∅;
     highlight_until_ms := 0;
     started := false;
     start_ticks_ms := 0;
     end_ticks_ms := 0 |}.

(** [Game.set_difficulty]: the configuration is rewritten, the display is
    resized to the new dimensions, then [reset] runs. *)
Definition set_difficulty (g : Game) (cols rows mines : Z) : Game :=
  let c := config.set_difficulty (cfg g) cols rows mines in
  reset (mkGame c (config.display_dimension c) (board g)
                (highlight_targets g) (highlight_until_ms g)
                (started g) (start_ticks_ms g) (end_ticks_ms g)).

(** [Game._elapsed_ms]; [now] is what [get_ticks()] returns when the
    last line is reached.  A timestamp of 0 is Python-false. *)
Definition _elapsed_ms (g : Game) (now : Z) : Z :=
  if negb (started g) then 0
  else if negb (end_ticks_ms g =? 0) then end_ticks_ms g - start_ticks_ms g
  else now - start_ticks_ms g.

(** [{n:02d}]: the decimal numeral, zero-padded to two characters. *)
Definition format_02d (n : Z) : string :=
  let s := pretty n in
  if (String.length s <? 2)%nat then "0" +:+ s else s.

(** [Game._format_time] *)
Definition _format_time (ms : Z) : string :=
  let total_seconds := ms `div` 1000 in
  let minutes := total_seconds `div` 60 in
  let seconds := total_seconds `mod` 60 in
  format_02d minutes +:+ ":" +:+ format_02d seconds
    +:+ " (" +:+ pretty total_seconds +:+ "s)".

(** [Game._result_text] *)
Definition _result_text (g : Game) : option string :=
  if game_over (board g) then Some "GAME OVER"
  else if win (board g) then Some "GAME CLEAR"
  else None.

(** ** InputController *)

(** The sentinel [(-1, -1)]. *)
Definition invalid : Z * Z := (-1, -1).

(** [InputController.pos_to_grid].  The quotient is Python's floor
    division, which [`div`] is for every non-zero cell size. *)
Definition pos_to_grid (g : Game) (x y : Z) : Z * Z :=
  let c := cfg g in
  if negb ((config.margin_left c <=? x)
           && (x <? config.width c - config.margin_right c)) then invalid
  else if negb ((config.margin_top c <=? y)
                && (y <? config.height c - config.margin_bottom c)) then invalid
  else
    let col := (x - config.margin_left c) `div` config.cell_size c in
    let row := (y - config.margin_top c) `div` config.cell_size c in
    if (0 <=? col) && (col <? board_cols (board g))
       && ((0 <=? row) && (row <? board_rows (board g)))
    then (col, row)
    else invalid.

(** The three stages of the primary-button branch. *)
Definition clear_highlight (g : Game) : Game :=
  set_highlight_targets g ∅.

Definition start_clock (g : Game) (now : Z) : Game :=
  if negb (started g) then set_start_ticks_ms (set_started g true) now
  else g.

Definition forward_reveal (g : Game) (col row : Z) : Game :=
  set_board g (reveal (board g) col row).

Definition forward_toggle_flag (g : Game) (col row : Z) : Game :=
  set_board g (toggle_flag (board g) col row).

(** The set comprehension of the middle-button branch. *)
Definition unrevealed_neighbors (b : Board) (col row : Z) : gset (Z * Z) :=
  list_to_set
    (filter (λ n : Z * Z, is_revealed (cell_state b n.1 n.2) = false)
            (neighbors b col row)).

Definition preview_neighbors (g : Game) (now : Z) (col row : Z) : Game :=
  set_highlight_until_ms
    (set_highlight_targets g (unrevealed_neighbors (board g) col row))
    (now + config.highlight_duration_ms (cfg g)).

(** [InputController.handle_mouse]; [now] is the reading of the clock
    available to the handler. *)
Definition handle_mouse (g : Game) (now : Z) (pos : Z * Z) (button : Z) : Game :=
  let '(col, row) := pos_to_grid g pos.1 pos.2 in
  if col =? -1 then g
  else if button =? config.mouse_left (cfg g) then
    forward_reveal (start_clock (clear_highlight g) now) col row
  else if button =? config.mouse_right (cfg g) then
    forward_toggle_flag (clear_highlight g) col row
  else if button =? config.mouse_middle (cfg g) then
    preview_neighbors g now col row
  else g.

(** ** Game.draw *)

(** [Renderer.draw_cell] *)
Definition draw_cell (b : Board) (col row : Z) (highlighted : bool) : CellDraw :=
  let st := cell_state b col row in
  if is_revealed st then
    if is_mine st then RevealedMine
    else if 0 <? adjacent st then RevealedNumber (adjacent st)
    else RevealedBlank
  else HiddenCell highlighted (is_flagged st).

(** The expiry test that opens [draw]. *)
Definition expire_highlight (g : Game) (now : Z) : Game :=
  if (highlight_until_ms g <? now) && negb (bool_decide (highlight_targets g = ∅))
  then clear_highlight g
  else g.

(** The value of [highlighted] in the cell loop. *)
Definition highlighted_at (g : Game) (now : Z) (c r : Z) : bool :=
  (now <=? highlight_until_ms g) && bool_decide ((c, r) ∈ highlight_targets g).

Definition remaining_mines (g : Game) : Z :=
  0 `max` (config.num_mines (cfg g) - flagged_count (board g)).

Definition difficulty_text (g : Game) : string :=
  if board_cols (board g) =? 9 then "EASY"
  else if board_cols (board g) =? 16 then "NORMAL"
  else "HARD".

(** The nested [for r in range(rows): for c in range(cols)] loop. *)
Definition draw_cells (g : Game) (now : Z) : list (Z * Z * CellDraw) :=
  r ← seqZ 0 (board_rows (board g));
  c ← seqZ 0 (board_cols (board g));
  [ (c, r, draw_cell (board g) c r (highlighted_at g now c r)) ].

(** [Renderer.draw_result_overlay] paints nothing for [None] and for the
    empty string. *)
Definition draw_result_overlay (text : option string) : option string :=
  match text with
  | Some "" => None
  | t => t
  end.

Definition draw (g : Game) (t : DrawTicks) : Game * Frame :=
  let g' := expire_highlight g (at_expiry t) in
  (g',
   {| header_mines := remaining_mines g';
      header_time := _format_time (_elapsed_ms g' (at_elapsed t));
      header_difficulty := difficulty_text g';
      frame_cells := draw_cells g' (at_cells t);
      frame_overlay := draw_result_overlay (_result_text g') |}).

(** ** Game.run_step *)

(** The hint branch of the key handler. *)
Definition hint (g : Game) (now : Z) : Game :=
  match get_hint_coordinates (board g) with
  | Some hint_coord =>
      set_highlight_until_ms
        (set_highlight_targets g {[ hint_coord ]})
        (now + config.highlight_duration_ms (cfg g))
  | None => g
  end.

Definition handle_key (g : Game) (now : Z) (k : Key) : Game :=
  match k with
  | K_r => reset g
  | K_1 => reset (set_difficulty g 9 9 10)
  | K_2 => reset (set_difficulty g 16 16 40)
  | K_3 => reset (set_difficulty g 24 24 99)
  | K_h => hint g now
  | K_other => g
  end.

Definition handle_event (g : Game) (now : Z) (e : Event) : Game :=
  match e with
  | QUIT => g
  | KEYDOWN k => handle_key g now k
  | MOUSEBUTTONDOWN pos button => handle_mouse g now pos button
  | OTHER => g
  end.

(** The event loop of [run_step]: [false] when a QUIT event made
    [run_step] return before the rest of the queue was handled. *)
Fixpoint process_events (g : Game) (evs : list (Z * Event)) : bool * Game :=
  match evs with
  | [] => (true, g)
  | (_, QUIT) :: _ => (false, g)
  | (now, e) :: rest => process_events (handle_event g now e) rest
  end.

(** The condition of the per-frame end check. *)
Definition end_check_fires (g : Game) : bool :=
  (game_over (board g) || win (board g)) && started g
  && (end_ticks_ms g =? 0).

Definition end_check (g : Game) (now : Z) : Game :=
  if end_check_fires g then set_end_ticks_ms g now else g.

Definition run_step (g : Game) (i : FrameInput) : bool * Game * option Frame :=
  let '(running, g1) := process_events g (events i) in
  if running then
    let '(g2, f) := draw (end_check g1 (at_end_check i)) (at_draw i) in
    (true, g2, Some f)
  else (false, g1, None).

(** The loop of [main] over the frames that arrive, stopping at the
    first [run_step] that returns [False]. *)
Fixpoint main_loop (g : Game) (frames : list FrameInput) : Game :=
  match frames with
  | [] => g
  | i :: rest =>
      let '(running, g', _) := run_step g i in
      if running then main_loop g' rest else g'
  end.

Definition act (g : Game) (a : Action) : Game :=
  match a with
  | Handle now e => handle_event g now e
  | EndCheck now => end_check g now
  | Draw t => (draw g t).1
  end.

Definition run_actions (g : Game) (l : list Action) : Game := foldl act g l.


(** The states the program passes through. *)
Inductive reachable : Game → Prop :=
  | reachable_init (c : config.t) : reachable (Game_init c)
  | reachable_act (g : Game) (a : Action) :
      reachable g → reachable (act g a).

(** The frames successive calls of [draw] produce. *)
Fixpoint draws (g : Game) (ts : list DrawTicks) : list Frame :=
  match ts with
  | [] => []
  | t :: rest => (draw g t).2 :: draws (draw g t).1 rest
  end.

(** The playing-field rectangle: the margins and the grid extent of the
    current difficulty. *)
Definition in_playing_field (c : config.t) (x y : Z) : Prop :=
  config.margin_left c ≤ x
    < config.margin_left c + config.cols c * config.cell_size c
  ∧ config.margin_top c ≤ y
    < config.margin_top c + config.rows c * config.cell_size c.

(** The window and the board agree with the configured difficulty. *)
Definition consistent (g : Game) : Prop :=
  config.geometry_ok (cfg g)
  ∧ board_cols (board g) = config.cols (cfg g)
  ∧ board_rows (board g) = config.rows (cfg g).

(** Once the end timestamp is set the timer has been started. *)
Definition clock_inv (g : Game) : Prop :=
  end_ticks_ms g ≠ 0 → started g = true.

(** A cell painted in the highlight colour. *)
Definition painted_highlighted (d : CellDraw) : bool :=
  match d with
  | HiddenCell true _ => true
  | _ => false
  end.

End Game.

Arguments Game : clear implicits.

(** ** A small board to run the model on

    A deterministic stand-in for [components.Board]: the mines occupy the
    first cells in row-major order, a reveal uncovers one cell, and the game
    is lost once an uncovered cell holds a mine. *)
Module sample.

Record board : Type := mk {
  cols : Z;
  rows : Z;
  mines : Z;
  revealed : list (Z * Z);
  flagged : list (Z * Z)
}.

Definition mine_at (b : board) (c r : Z) : bool :=
  bool_decide (r * cols b + c < mines b).

Definition in_bounds (b : board) (c r : Z) : bool :=
  bool_decide (0 ≤ c < cols b ∧ 0 ≤ r < rows b).

Definition around (c r : Z) : list (Z * Z) :=
  [ (c - 1, r - 1); (c, r - 1); (c + 1, r - 1);
    (c - 1, r); (c + 1, r);
    (c - 1, r + 1); (c, r + 1); (c + 1, r + 1) ].

Definition neighbors (b : board) (c r : Z) : list (Z * Z) :=
  filter (λ p : Z * Z, in_bounds b p.1 p.2 = true) (around c r).

Definition game_over (b : board) : bool :=
  existsb (λ p : Z * Z, mine_at b p.1 p.2) (revealed b).

Definition win (b : board) : bool :=
  negb (game_over b)
  && (Z.of_nat (length (revealed b)) =? cols b * rows b - mines b).

Definition reveal (b : board) (c r : Z) : board :=
  if game_over b || win b || bool_decide ((c, r) ∈ revealed b)
     || negb (in_bounds b c r)
  then b
  else mk (cols b) (rows b) (mines b) ((c, r) :: revealed b) (flagged b).

Definition toggle_flag (b : board) (c r : Z) : board :=
  if bool_decide ((c, r) ∈ flagged b)
  then mk (cols b) (rows b) (mines b) (revealed b)
          (filter (λ p : Z * Z, p ≠ (c, r)) (flagged b))
  else mk (cols b) (rows b) (mines b) (revealed b) ((c, r) :: flagged b).

Definition cell_state (b : board) (c r : Z) : CellState :=
  {| is_revealed := bool_decide ((c, r) ∈ revealed b);
     is_mine := mine_at b c r;
     is_flagged := bool_decide ((c, r) ∈ flagged b);
     adjacent :=
       Z.of_nat (length (filter (λ p : Z * Z, mine_at b p.1 p.2 = true)
                                (neighbors b c r))) |}.

Definition all_cells (b : board) : list (Z * Z) :=
  r ← seqZ 0 (rows b); c ← seqZ 0 (cols b); [ (c, r) ].

Definition get_hint_coordinates (b : board) : option (Z * Z) :=
  head (filter (λ p : Z * Z, mine_at b p.1 p.2 = false ∧ p ∉ revealed b)
               (all_cells b)).

#[global] Instance model : BoardModel board :=
  Build_BoardModel board
    (λ c r m, mk c r m [] []) cols rows game_over win cell_state
    reveal toggle_flag neighbors
    (λ b, Z.of_nat (length (flagged b))) get_hint_coordinates.

(** The EASY tier in a window with a 32-pixel cell. *)
Definition easy : config.t :=
  {| config.cols := 9; config.rows := 9; config.num_mines := 10;
     config.width := 304; config.height := 344;
     config.display_dimension := (304, 344);
     config.margin_left := 8; config.margin_top := 48;
     config.margin_right := 8; config.margin_bottom := 8;
     config.cell_size := 32;
     config.highlight_duration_ms := 1500;
     config.mouse_left := 1; config.mouse_right := 3;
     config.mouse_middle := 2 |}.

Definition fresh : Game board := Game_init easy.

(** A primary click on the cell (0, 0), which holds a mine. *)
Definition lost : Game board :=
  run_actions fresh [ Handle 100 (MOUSEBUTTONDOWN (8, 48) 1) ].


(** What may follow in the same session. *)
Definition later : list Action :=
  [ Draw {| at_expiry := 121; at_elapsed := 121; at_cells := 122 |};
    Handle 130 (MOUSEBUTTONDOWN (40, 80) 1);
    Handle 131 (KEYDOWN K_h);
    EndCheck 136;
    Draw {| at_expiry := 137; at_elapsed := 137; at_cells := 138 |} ].

(** A tertiary click on the cell (1, 1) at clock reading 100. *)
Definition previewing : Game board := handle_mouse fresh 100 (40, 80) 2.

(** A one-cell board whose only cell is a mine: no hint exists. *)
Definition hintless : Game board := set_difficulty fresh 1 1 1.

(** One flag on a board without mines. *)
Definition overflagged : Game board :=
  handle_mouse (set_difficulty fresh 2 2 0) 50 (8, 48) 3.

(** One flag on the EASY board. *)
Definition one_flag : Game board := handle_mouse fresh 50 (8, 48) 3.

End sample.

(** ** Renderer geometry and drawing primitives *)

(** A [pygame.Rect]: left, top, width, height. *)
Record Rect : Type := mkRect {
  rect_left : Z;
  rect_top : Z;
  rect_width : Z;
  rect_height : Z
}.

(** [Rect.center]; pygame halves the width and the height with C integer
    division, which is the floor for the sizes that occur here. *)
Definition rect_center (r : Rect) : Z * Z :=
  (rect_left r + rect_width r `quot` 2, rect_top r + rect_height r `quot` 2).

(** The pixels a rectangle covers: left and top edges included, right and
    bottom edges excluded. *)
Definition rect_covers (r : Rect) (p : Z * Z) : bool :=
  (rect_left r <=? p.1) && (p.1 <? rect_left r + rect_width r)
  && ((rect_top r <=? p.2) && (p.2 <? rect_top r + rect_height r)).

(** [Renderer.cell_rect] *)
Definition cell_rect (c : config.t) (col row : Z) : Rect :=
  {| rect_left := config.margin_left c + col * config.cell_size c;
     rect_top := config.margin_top c + row * config.cell_size c;
     rect_width := config.cell_size c;
     rect_height := config.cell_size c |}.

(** The colour attributes of [config] that [Renderer.draw_cell] reads.
    [number_colors] is a dictionary from adjacency counts to colours. *)
Record Palette (Color : Type) : Type := {
  color_cell_revealed : Color;
  color_cell_mine : Color;
  color_text : Color;
  number_colors : gmap Z Color;
  color_highlight : Color;
  color_cell_hidden : Color;
  color_flag : Color;
  color_grid : Color
}.

Arguments color_cell_revealed {Color} _.
Arguments color_cell_mine {Color} _.
Arguments color_text {Color} _.
Arguments number_colors {Color} _.
Arguments color_highlight {Color} _.
Arguments color_cell_hidden {Color} _.
Arguments color_flag {Color} _.
Arguments color_grid {Color} _.

(** The draw calls of [Renderer.draw_cell]: [pygame.draw.rect] without and
    with a border width, [pygame.draw.circle], a rendered label blitted
    with its centre at a point, [pygame.draw.line] and
    [pygame.draw.polygon]. *)
Inductive Prim (Color : Type) : Type :=
  | FillRect (color : Color) (r : Rect)
  | Outline (color : Color) (r : Rect) (width : Z)
  | Circle (color : Color) (center : Z * Z) (radius : Z)
  | Label (text : string) (color : Color) (center : Z * Z)
  | Line (color : Color) (p q : Z * Z) (width : Z)
  | Polygon (color : Color) (points : list (Z * Z)).

Arguments FillRect {Color} _ _.
Arguments Outline {Color} _ _ _.
Arguments Circle {Color} _ _ _.
Arguments Label {Color} _ _ _.
Arguments Line {Color} _ _ _ _.
Arguments Polygon {Color} _ _.

(** The points a draw call is given: the ends of a line, the vertices of a
    polygon, and for a circle the corners of its bounding square. *)
Definition prim_points {Color : Type} (p : Prim Color) : list (Z * Z) :=
  match p with
  | Line _ a b _ => [a; b]
  | Polygon _ pts => pts
  | Circle _ c radius =>
      [ (c.1 - radius, c.2 - radius); (c.1 + radius, c.2 + radius) ]
  | _ => []
  end.

Section Rendering.

Context {Color : Type} {Board : Type} `{BM : BoardModel Board}.

(** The flag of [draw_cell]: the pole and the triangle. *)
Definition flag_marker (pal : Palette Color) (rect : Rect) : list (Prim Color) :=
  let flag_w := 6 `max` (rect_width rect `div` 3) in
  let flag_h := 8 `max` (rect_height rect `div` 2) in
  let pole_x := rect_left rect + rect_width rect `div` 3 in
  let pole_y := rect_top rect + 4 in
  [ Line (color_flag pal) (pole_x, pole_y) (pole_x, pole_y + flag_h) 2;
    Polygon (color_flag pal)
      [ (pole_x + 2, pole_y);
        (pole_x + 2 + flag_w, pole_y + flag_h `div` 3);
        (pole_x + 2, pole_y + flag_h `div` 2) ] ].

(** The mine of [draw_cell]. *)
Definition mine_marker (pal : Palette Color) (rect : Rect) : Prim Color :=
  Circle (color_cell_mine pal) (rect_center rect) (rect_width rect `div` 4).

(** [config.number_colors.get(adjacent, config.color_text)] *)
Definition number_color (pal : Palette Color) (adjacent : Z) : Color :=
  default (color_text pal) (number_colors pal !! adjacent).

(** [Renderer.draw_cell], as the list of its draw calls in order. *)
Definition draw_cell_ops (pal : Palette Color) (c : config.t) (b : Board)
    (col row : Z) (highlighted : bool) : list (Prim Color) :=
  let cell := cell_state b col row in
  let rect := cell_rect c col row in
  (if is_revealed cell then
     FillRect (color_cell_revealed pal) rect
     :: (if is_mine cell then [ mine_marker pal rect ]
         else if 0 <? adjacent cell then
           [ Label (pretty (adjacent cell))
                   (number_color pal (adjacent cell)) (rect_center rect) ]
         else [])
   else
     FillRect (if highlighted then color_highlight pal
               else color_cell_hidden pal) rect
     :: (if is_flagged cell then flag_marker pal rect else []))
  ++ [ Outline (color_grid pal) rect 1 ].

(** The draw calls that show a picture of the kind [draw_cell] computes. *)
Definition paint_picture (pal : Palette Color) (rect : Rect) (d : CellDraw)
    : list (Prim Color) :=
  match d with
  | RevealedMine =>
      [ FillRect (color_cell_revealed pal) rect; mine_marker pal rect ]
  | RevealedNumber n =>
      [ FillRect (color_cell_revealed pal) rect;
        Label (pretty n) (number_color pal n) (rect_center rect) ]
  | RevealedBlank => [ FillRect (color_cell_revealed pal) rect ]
  | HiddenCell highlight flag =>
      FillRect (if highlight then color_highlight pal
                else color_cell_hidden pal) rect
      :: (if flag then flag_marker pal rect else [])
  end ++ [ Outline (color_grid pal) rect 1 ].

(** ** Which actions may change what *)

Definition clock_of (g : Game Board) : bool * Z * Z :=
  (started g, start_ticks_ms g, end_ticks_ms g).

Definition changes_clock (g : Game Board) (a : Action) : bool :=
  match a with
  | Handle _ (MOUSEBUTTONDOWN _ button) => button =? config.mouse_left (cfg g)
  | Handle _ e => resets e
  | EndCheck _ => true
  | Draw _ => false
  end.

Definition changes_board (g : Game Board) (a : Action) : bool :=
  match a with
  | Handle _ (MOUSEBUTTONDOWN _ button) =>
      (button =? config.mouse_left (cfg g))
      || (button =? config.mouse_right (cfg g))
  | Handle _ e => resets e
  | _ => false
  end.

Definition changes_config (a : Action) : bool :=
  match a with
  | Handle _ (KEYDOWN (K_1 | K_2 | K_3)) => true
  | _ => false
  end.

End Rendering.

(** The attributes of [config] that run.py only reads. *)
Definition layout_constants (c : config.t) : Z * Z * Z * Z * Z * Z * (Z * Z * Z) :=
  (config.margin_left c, config.margin_top c, config.margin_right c,
   config.margin_bottom c, config.cell_size c,
   config.highlight_duration_ms c,
   (config.mouse_left c, config.mouse_right c, config.mouse_middle c)).

(** ** Clock readings along a run *)

(** The clock readings of an action, in the order they are taken. *)
Definition readings (a : Action) : list Z :=
  match a with
  | Handle now _ => [ now ]
  | EndCheck now => [ now ]
  | Draw t => [ at_expiry t; at_elapsed t; at_cells t ]
  end.

(** The readings never go back, starting from [m]. *)
Fixpoint nondecreasing_from (m : Z) (l : list Z) : bool :=
  match l with
  | [] => true
  | x :: rest => (m <=? x) && nondecreasing_from x rest
  end.

Definition is_quit (e : Event) : bool :=
  match e with
  | QUIT => true
  | _ => false
  end.

Definition has_quit (evs : list (Z * Event)) : bool :=
  existsb (λ p : Z * Event, is_quit p.2) evs.

(** ** Frames and runs on the sample board *)
Module scenario.

Definition ticks (n : Z) : DrawTicks :=
  {| at_expiry := n; at_elapsed := n; at_cells := n |}.

(** A frame with a primary click on the mine at (0, 0). *)
Definition losing_frame : FrameInput :=
  {| events := [ (100, MOUSEBUTTONDOWN (8, 48) 1) ];
     at_end_check := 120;
     at_draw := ticks 121 |}.

(** A frame whose queue holds a key, a QUIT and a click after it. *)
Definition quitting_frame : FrameInput :=
  {| events := [ (200, KEYDOWN K_h); (201, QUIT);
                 (202, MOUSEBUTTONDOWN (40, 80) 1) ];
     at_end_check := 210;
     at_draw := ticks 211 |}.

Definition normal_frame : FrameInput :=
  {| events := [ (300, KEYDOWN K_2) ];
     at_end_check := 310;
     at_draw := ticks 311 |}.

(** The lost game as a run from the start. *)
Definition lost_run : list Action :=
  Handle 100 (MOUSEBUTTONDOWN (8, 48) 1) :: EndCheck 120 :: sample.later.

End scenario.

(** ** A game that is lost while the clock still reads 0 *)
Module zero_reading.

(** The primary click on the mine at (0, 0), handled at clock reading 0. *)
Definition lost : Game sample.board :=
  run_actions sample.fresh [ Handle 0 (MOUSEBUTTONDOWN (8, 48) 1) ].


End zero_reading.

(** * Properties *)

Section Properties.

Context {Board : Type} `{BM : BoardModel Board}.

Implicit Types (g : Game Board) (now x y col row button : Z).

(** ** pos_to_grid *)

Lemma pos_to_grid_inv g x y :
  pos_to_grid g x y = invalid
  ∨ (pos_to_grid g x y
       = ((x - config.margin_left (cfg g)) `div` config.cell_size (cfg g),
          (y - config.margin_top (cfg g)) `div` config.cell_size (cfg g))
     ∧ config.margin_left (cfg g) ≤ x
         < config.width (cfg g) - config.margin_right (cfg g)
     ∧ config.margin_top (cfg g) ≤ y
         < config.height (cfg g) - config.margin_bottom (cfg g)
     ∧ 0 ≤ (pos_to_grid g x y).1 < board_cols (board g)
     ∧ 0 ≤ (pos_to_grid g x y).2 < board_rows (board g)).
Proof.
  unfold pos_to_grid.
  destruct (negb _) eqn:Hx; [by left|].
  destruct (negb (_ && (y <? _))) eqn:Hy; [by left|].
  destruct (_ && _ && _) eqn:Hb; [right|by left].
  apply negb_false_iff in Hx, Hy. simpl.
  generalize dependent ((x - config.margin_left (cfg g)) `div` config.cell_size (cfg g)).
  generalize dependent ((y - config.margin_top (cfg g)) `div` config.cell_size (cfg g)).
  intros row col Hb. split; [done|lia].
Qed.

Lemma pos_to_grid_outside g x y :
  ¬ (config.margin_left (cfg g) ≤ x
       < config.width (cfg g) - config.margin_right (cfg g)
     ∧ config.margin_top (cfg g) ≤ y
       < config.height (cfg g) - config.margin_bottom (cfg g)) →
  pos_to_grid g x y = invalid.
Proof.
  intros Hout. destruct (pos_to_grid_inv g x y) as [->|(_ & ? & ? & _)]; [done|].
  exfalso. apply Hout. lia.
Qed.

Lemma fst_invalid_iff g x y :
  (pos_to_grid g x y).1 = -1 ↔ pos_to_grid g x y = invalid.
Proof.
  split; [|by intros ->].
  destruct (pos_to_grid_inv g x y) as [->|(_ & _ & _ & ? & _)]; [done|lia].
Qed.

Lemma handle_mouse_invalid g now x y button :
  pos_to_grid g x y = invalid → handle_mouse g now (x, y) button = g.
Proof. unfold handle_mouse. simpl. by intros ->. Qed.

(** ** Consistency of window, configuration and board *)

Lemma geometry_ok_set_difficulty (c : config.t) cols rows mines :
  0 < config.cell_size c →
  config.geometry_ok (config.set_difficulty c cols rows mines).
Proof. intros Hc. by repeat split. Qed.

Lemma consistent_reset `{!BoardDims Board} g :
  config.geometry_ok (cfg g) → consistent (reset g).
Proof.
  intros Hg. split; [done|]. simpl.
  by rewrite Board_new_cols, Board_new_rows.
Qed.

Lemma consistent_set_difficulty `{!BoardDims Board} g cols rows mines :
  0 < config.cell_size (cfg g) → consistent (set_difficulty g cols rows mines).
Proof.
  intros Hc. apply consistent_reset. simpl.
  by apply geometry_ok_set_difficulty.
Qed.

Lemma consistent_init `{!BoardDims Board} (c : config.t) :
  config.geometry_ok c → consistent (Game_init c).
Proof.
  intros Hg. split; [done|]. simpl.
  by rewrite Board_new_cols, Board_new_rows.
Qed.

Lemma consistent_handle_mouse `{!BoardDims Board} g now pos button :
  consistent g → consistent (handle_mouse g now pos button).
Proof.
  intros Hg. unfold handle_mouse.
  destruct (pos_to_grid _ _ _) as [col row].
  destruct (col =? -1); [done|].
  destruct Hg as (Hgeo & Hc & Hr).
  repeat case_match; try done; unfold consistent, start_clock; simpl.
  - destruct (started g); simpl; by rewrite reveal_cols, reveal_rows.
  - by rewrite toggle_flag_cols, toggle_flag_rows.
Qed.

Lemma consistent_act `{!BoardDims Board} g a :
  consistent g → consistent (act g a).
Proof.
  intros Hg. destruct a as [now e|now|t]; simpl.
  - destruct e as [|k|pos button|]; simpl; try done.
    + assert (0 < config.cell_size (cfg g)) by apply Hg.
      destruct k; simpl; try done;
        try (apply consistent_reset, consistent_set_difficulty; done).
      * apply consistent_reset, Hg.
      * unfold hint. by case_match.
    + by apply consistent_handle_mouse.
  - unfold end_check. by case_match.
  - unfold expire_highlight. by case_match.
Qed.

(** Every state the program reaches from a start-up configuration whose
    window fits its grid is consistent. *)
Lemma consistent_reachable `{!BoardDims Board} (c : config.t) (l : list Action) :
  config.geometry_ok c → consistent (run_actions (Game_init c) l).
Proof.
  intros Hc. unfold run_actions.
  generalize (consistent_init c Hc). generalize (Game_init c).
  induction l as [|a l IH]; intros g Hg; simpl; [done|].
  by apply IH, consistent_act.
Qed.

(** C9: [pos_to_grid] returns either exactly the sentinel (-1, -1) or a
    pair whose column and row are both within the bounds of the live board;
    no mixed pair is returned.  Hence the column component is -1 exactly
    when the pair is the sentinel, and [handle_mouse], which tests the
    column alone, leaves the game untouched at every invalid position. *)
Theorem pos_to_grid_sentinel_or_in_bounds g x y :
  (pos_to_grid g x y = invalid
   ∨ (0 ≤ (pos_to_grid g x y).1 < board_cols (board g)
      ∧ 0 ≤ (pos_to_grid g x y).2 < board_rows (board g)))
  ∧ ((pos_to_grid g x y).1 = -1 ↔ pos_to_grid g x y = invalid)
  ∧ ((pos_to_grid g x y).2 = -1 ↔ pos_to_grid g x y = invalid)
  ∧ (∀ now button,
       (pos_to_grid g x y).1 = -1 ∨ (pos_to_grid g x y).2 = -1
       ∨ ¬ (0 ≤ (pos_to_grid g x y).1 < board_cols (board g))
       ∨ ¬ (0 ≤ (pos_to_grid g x y).2 < board_rows (board g)) →
       handle_mouse g now (x, y) button = g).
Proof.
  destruct (pos_to_grid_inv g x y) as [Hi|(_ & _ & _ & Hc & Hr)].
  - repeat split; try done; try (by left); try (by rewrite Hi).
    intros. by apply handle_mouse_invalid.
  - repeat split; try (by right); try lia; try (by intros ->); lia.
Qed.

(** C5: when the window and the board agree with the configured difficulty,
    [pos_to_grid] returns the sentinel for every pixel outside the
    playing-field rectangle, and for every pixel inside it returns the cell
    obtained by floor division, whose column and row are within the bounds
    of the live board. *)
Theorem pos_to_grid_playing_field g x y :
  consistent g →
  (¬ in_playing_field (cfg g) x y → pos_to_grid g x y = invalid)
  ∧ (in_playing_field (cfg g) x y →
     pos_to_grid g x y
       = ((x - config.margin_left (cfg g)) `div` config.cell_size (cfg g),
          (y - config.margin_top (cfg g)) `div` config.cell_size (cfg g))
     ∧ 0 ≤ (pos_to_grid g x y).1 < board_cols (board g)
     ∧ 0 ≤ (pos_to_grid g x y).2 < board_rows (board g)
     ∧ 0 ≤ (pos_to_grid g x y).1 < config.cols (cfg g)
     ∧ 0 ≤ (pos_to_grid g x y).2 < config.rows (cfg g)).
Proof.
  intros ((Hcs & Hw & Hh) & Hbc & Hbr). unfold in_playing_field. split.
  - intros Hout. apply pos_to_grid_outside. lia.
  - intros [Hx Hy].
    assert (0 ≤ (x - config.margin_left (cfg g)) `div` config.cell_size (cfg g)
              < config.cols (cfg g)) as Hcol.
    { split; [apply Z.div_pos; lia|apply Z.div_lt_upper_bound; lia]. }
    assert (0 ≤ (y - config.margin_top (cfg g)) `div` config.cell_size (cfg g)
              < config.rows (cfg g)) as Hrow.
    { split; [apply Z.div_pos; lia|apply Z.div_lt_upper_bound; lia]. }
    assert (pos_to_grid g x y
       = ((x - config.margin_left (cfg g)) `div` config.cell_size (cfg g),
          (y - config.margin_top (cfg g)) `div` config.cell_size (cfg g))) as ->.
    { unfold pos_to_grid.
      rewrite Hw, Hh, Hbc, Hbr.
      repeat (case_bool_decide || case_match); try done; lia. }
    simpl. rewrite Hbc, Hbr. split; [done|lia].
Qed.

(** ** Difficulty change *)

(** C2: after [set_difficulty] the configuration reads the requested
    columns, rows and mine count, the window is recomputed and the display
    resized to it, the board is a newly constructed one for those
    dimensions, [started] is false, both timestamps are cleared and the
    highlight set is empty with expiry 0: the state [reset] produces from
    the new configuration.  In particular for the NORMAL tier (16, 16, 40),
    also when reached through the key 2. *)
Theorem set_difficulty_full_reset g :
  (∀ cols rows mines,
     let g' := set_difficulty g cols rows mines in
     config.cols (cfg g') = cols
     ∧ config.rows (cfg g') = rows
     ∧ config.num_mines (cfg g') = mines
     ∧ config.width (cfg g')
         = config.margin_left (cfg g) + cols * config.cell_size (cfg g)
           + config.margin_right (cfg g)
     ∧ config.height (cfg g')
         = config.margin_top (cfg g) + rows * config.cell_size (cfg g)
           + config.margin_bottom (cfg g)
     ∧ screen g' = (config.width (cfg g'), config.height (cfg g'))
     ∧ board g' = Board_new cols rows mines
     ∧ started g' = false
     ∧ start_ticks_ms g' = 0
     ∧ end_ticks_ms g' = 0
     ∧ highlight_targets g' = ∅
     ∧ highlight_until_ms g' = 0
     ∧ reset g' = g')
  ∧ (let g' := set_difficulty g 16 16 40 in
     config.cols (cfg g') = 16
     ∧ config.rows (cfg g') = 16
     ∧ config.num_mines (cfg g') = 40
     ∧ board g' = Board_new 16 16 40
     ∧ started g' = false
     ∧ start_ticks_ms g' = 0
     ∧ end_ticks_ms g' = 0
     ∧ highlight_targets g' = ∅
     ∧ highlight_until_ms g' = 0
     ∧ ∀ now, handle_event g now (KEYDOWN K_2) = g').
Proof. split; [intros cols rows mines|]; simpl; by repeat split. Qed.

(** ** The session clock *)

Ltac mouse_cases g :=
  unfold handle_mouse;
  destruct (pos_to_grid g _ _) as [? ?];
  repeat case_match; try done;
  unfold forward_reveal, forward_toggle_flag, preview_neighbors,
         start_clock, clear_highlight; simpl.

Lemma handle_mouse_end_ticks g now pos button :
  end_ticks_ms (handle_mouse g now pos button) = end_ticks_ms g.
Proof. mouse_cases g. by destruct (started g). Qed.

Lemma handle_mouse_started g now pos button :
  started g = true →
  started (handle_mouse g now pos button) = true
  ∧ start_ticks_ms (handle_mouse g now pos button) = start_ticks_ms g.
Proof. intros Hs. mouse_cases g; by rewrite Hs. Qed.

Lemma handle_mouse_keeps_started g now pos button :
  started g = true → started (handle_mouse g now pos button) = true.
Proof. intros Hs. by apply handle_mouse_started. Qed.

Lemma clock_inv_act g a : clock_inv g → clock_inv (act g a).
Proof.
  unfold clock_inv. intros Hg.
  destruct a as [now e|now|t]; simpl.
  - destruct e as [|k|pos button|]; simpl; try done.
    + destruct k; simpl; try done. unfold hint. by case_match.
    + rewrite handle_mouse_end_ticks. intros He.
      by apply handle_mouse_keeps_started, Hg.
  - unfold end_check. destruct (end_check_fires g) eqn:Hf; [|done].
    simpl. intros _. unfold end_check_fires in Hf.
    by destruct (started g); [|rewrite andb_false_r in Hf].
  - unfold expire_highlight. by case_match.
Qed.


Lemma reachable_run_actions g l : reachable g → reachable (run_actions g l).
Proof.
  unfold run_actions. revert g.
  induction l as [|a l IH]; intros g Hg; simpl; [done|].
  by apply IH, reachable_act.
Qed.

(** Inside a session a started timer stays started, its start timestamp
    is kept, and a set end timestamp is kept. *)
Lemma act_in_session g a :
  in_session a = true →
  (started g = true →
     started (act g a) = true ∧ start_ticks_ms (act g a) = start_ticks_ms g)
  ∧ (end_ticks_ms g ≠ 0 → end_ticks_ms (act g a) = end_ticks_ms g).
Proof.
  intros Ha. destruct a as [now e|now|t]; simpl.
  - destruct e as [|k|pos button|]; simpl; try done.
    + destruct k; try done; simpl; unfold hint; by case_match.
    + split; [apply handle_mouse_started|].
      intros _. apply handle_mouse_end_ticks.
  - unfold end_check, end_check_fires.
    split.
    + by case_match.
    + intros He. apply Z.eqb_neq in He. rewrite He.
      by rewrite andb_false_r.
  - unfold expire_highlight. by case_match.
Qed.


Lemma session_started g acts :
  forallb in_session acts = true → started g = true →
  started (run_actions g acts) = true
  ∧ start_ticks_ms (run_actions g acts) = start_ticks_ms g.
Proof.
  unfold run_actions. revert g.
  induction acts as [|a acts IH]; intros g Hs Hg; simpl; [done|].
  simpl in Hs. apply andb_true_iff in Hs as [Ha Hs].
  destruct (act_in_session g a Ha) as [Hst _].
  destruct (Hst Hg) as [H1 H2].
  destruct (IH (act g a) Hs H1) as [H3 H4].
  split; [done|congruence].
Qed.


Lemma elapsed_ended g now :
  started g = true → end_ticks_ms g ≠ 0 →
  _elapsed_ms g now = end_ticks_ms g - start_ticks_ms g.
Proof.
  intros Hs He. apply Z.eqb_neq in He. unfold _elapsed_ms.
  by rewrite Hs, He.
Qed.


(** The final state of [run_step] is that of its actions, taken in order. *)
Lemma process_events_actions g evs :
  process_events g evs
  = ((event_actions evs).1, run_actions g (event_actions evs).2).
Proof.
  unfold run_actions. revert g.
  induction evs as [|[now e] evs IH]; intros g; [done|].
  destruct e; simpl; try done;
    rewrite IH; by destruct (event_actions evs).
Qed.

Lemma run_step_actions g i :
  (run_step g i).1.2 = run_actions g (frame_actions i)
  ∧ (run_step g i).1.1 = (event_actions (events i)).1.
Proof.
  unfold run_step, frame_actions. rewrite process_events_actions.
  destruct (event_actions (events i)) as [[] l]; simpl; [|done].
  unfold run_actions. by rewrite foldl_app.
Qed.

Lemma main_loop_actions g frames :
  main_loop g frames = run_actions g (loop_actions frames).
Proof.
  revert g. induction frames as [|i frames IH]; intros g; [done|].
  simpl. destruct (run_step_actions g i) as [Hg Hr].
  destruct (run_step g i) as [[running g'] f]. simpl in Hg, Hr.
  rewrite <- Hr. destruct running.
  - rewrite IH, Hg. unfold run_actions. by rewrite foldl_app.
  - done.
Qed.

Lemma event_actions_in_session evs :
  forallb (λ p : Z * Event, negb (resets p.2)) evs = true →
  forallb in_session (event_actions evs).2 = true.
Proof.
  induction evs as [|[now e] evs IH]; simpl; [done|].
  intros [He Hevs]%andb_true_iff. specialize (IH Hevs).
  destruct e; simpl; try done;
    destruct (event_actions evs); simpl in *; by rewrite ?He.
Qed.

Lemma frame_actions_in_session i :
  session_frame i = true → forallb in_session (frame_actions i) = true.
Proof.
  intros Hi. apply event_actions_in_session in Hi.
  unfold frame_actions.
  destruct (event_actions (events i)) as [[] l]; simpl in *; [|done].
  rewrite forallb_app, Hi. done.
Qed.

(** The frames of a session give the actions of a session. *)
Lemma loop_actions_in_session frames :
  forallb session_frame frames = true →
  forallb in_session (loop_actions frames) = true.
Proof.
  induction frames as [|i frames IH]; simpl; [done|].
  intros [Hi Hfs]%andb_true_iff.
  pose proof (frame_actions_in_session i Hi) as Hacts.
  case_match; [|done].
  rewrite forallb_app, Hacts. by apply IH.
Qed.

(** A clock reading of 0 at the end check stores the value that stands
    for an absent end timestamp, so the condition of the check stays
    true. *)
Lemma end_check_zero_reading g :
  end_check_fires g = true → end_check_fires (end_check g 0) = true.
Proof.
  intros Hf. unfold end_check. rewrite Hf.
  unfold end_check_fires in *. simpl.
  by apply andb_true_iff in Hf as [-> _].
Qed.

Lemma reachable_main_loop (c : config.t) frames :
  reachable (main_loop (Game_init c) frames).
Proof.
  rewrite main_loop_actions. apply reachable_run_actions, reachable_init.
Qed.


(** C3: a primary-button click that resolves to a valid cell forwards
    [reveal] for that cell and leaves the timer started; on a session that
    had not started it sets the start timestamp to the current clock
    reading, on a started one it keeps the start timestamp.  After the
    first such click the start timestamp stays the reading of that click
    through the rest of the session, in particular across every later
    primary-button click, whose reveal is still forwarded. *)
Theorem primary_click_starts_clock_once g now x y :
  (pos_to_grid g x y).1 ≠ -1 →
  let g1 := handle_mouse g now (x, y) (config.mouse_left (cfg g)) in
  board g1 = reveal (board g) (pos_to_grid g x y).1 (pos_to_grid g x y).2
  ∧ started g1 = true
  ∧ (started g = false → start_ticks_ms g1 = now)
  ∧ (started g = true → start_ticks_ms g1 = start_ticks_ms g)
  ∧ (started g = false →
     ∀ acts now' x' y',
       forallb in_session acts = true →
       let g2 := run_actions g1 acts in
       let g3 := handle_mouse g2 now' (x', y') (config.mouse_left (cfg g2)) in
       started g2 = true
       ∧ start_ticks_ms g2 = now
       ∧ started g3 = true
       ∧ start_ticks_ms g3 = now
       ∧ ((pos_to_grid g2 x' y').1 ≠ -1 →
          board g3
          = reveal (board g2) (pos_to_grid g2 x' y').1 (pos_to_grid g2 x' y').2)).
Proof.
  intros Hv g1.
  assert (∀ h t a b, (pos_to_grid h a b).1 ≠ -1 →
            let h1 := handle_mouse h t (a, b) (config.mouse_left (cfg h)) in
            board h1 = reveal (board h) (pos_to_grid h a b).1 (pos_to_grid h a b).2
            ∧ started h1 = true
            ∧ (started h = false → start_ticks_ms h1 = t)
            ∧ (started h = true → start_ticks_ms h1 = start_ticks_ms h)) as Hclick.
  { intros h t a b Hab. unfold handle_mouse. simpl.
    destruct (pos_to_grid h a b) as [col row]. simpl in Hab.
    apply Z.eqb_neq in Hab. rewrite Hab, Z.eqb_refl.
    unfold forward_reveal, start_clock, clear_highlight. simpl.
    destruct (started h) eqn:E; simpl; rewrite ?E; by repeat split. }
  destruct (Hclick g now x y Hv) as (Hb & Hs & Hn & Hk).
  do 4 (split; [done|]).
  intros Hfresh acts now' x' y' Hacts g2 g3.
  destruct (session_started g1 acts Hacts Hs) as [H1 H2].
  fold g2 in H1, H2.
  destruct (handle_mouse_started g2 now' (x', y') (config.mouse_left (cfg g2)) H1)
    as [H3 H4].
  fold g3 in H3, H4.
  repeat split; try done.
  - rewrite H2. by apply Hn.
  - rewrite H4, H2. by apply Hn.
  - intros Hv'. by apply Hclick.
Qed.

(** ** Mouse clicks and the highlight set *)

Lemma elem_of_unrevealed_neighbors (b : Board) col row (p : Z * Z) :
  p ∈ unrevealed_neighbors b col row
  ↔ p ∈ neighbors b col row ∧ is_revealed (cell_state b p.1 p.2) = false.
Proof.
  unfold unrevealed_neighbors.
  rewrite elem_of_list_to_set, list_elem_of_filter. tauto.
Qed.

(** C6: a click at a position that resolves to the sentinel leaves the
    whole game as it was, the highlight set included.  At a valid cell the
    primary button clears the highlight set, then starts the clock if
    needed and forwards [reveal]; the secondary button clears the highlight
    set, then forwards [toggle_flag]; the tertiary button, without clearing
    first, replaces the highlight set by the unrevealed neighbours of the
    cell and sets the expiry to the clock reading plus the highlight
    duration. *)
Theorem mouse_click_highlight g now x y :
  config.buttons_distinct (cfg g) →
  (pos_to_grid g x y = invalid →
     ∀ button, handle_mouse g now (x, y) button = g)
  ∧ ((pos_to_grid g x y).1 ≠ -1 →
     let col := (pos_to_grid g x y).1 in
     let row := (pos_to_grid g x y).2 in
     (let g' := handle_mouse g now (x, y) (config.mouse_left (cfg g)) in
      g' = forward_reveal (start_clock (clear_highlight g) now) col row
      ∧ highlight_targets g' = ∅
      ∧ highlight_until_ms g' = highlight_until_ms g
      ∧ board g' = reveal (board g) col row)
     ∧ (let g' := handle_mouse g now (x, y) (config.mouse_right (cfg g)) in
        g' = forward_toggle_flag (clear_highlight g) col row
        ∧ highlight_targets g' = ∅
        ∧ highlight_until_ms g' = highlight_until_ms g
        ∧ board g' = toggle_flag (board g) col row)
     ∧ (let g' := handle_mouse g now (x, y) (config.mouse_middle (cfg g)) in
        g' = preview_neighbors g now col row
        ∧ highlight_targets g' = unrevealed_neighbors (board g) col row
        ∧ (∀ p : Z * Z,
             p ∈ highlight_targets g'
             ↔ p ∈ neighbors (board g) col row
               ∧ is_revealed (cell_state (board g) p.1 p.2) = false)
        ∧ highlight_until_ms g'
          = now + config.highlight_duration_ms (cfg g)
        ∧ board g' = board g)).
Proof.
  intros (Hlr & Hlm & Hrm). split.
  - intros Hi button. by apply handle_mouse_invalid.
  - intros Hv col row. subst col row. unfold handle_mouse. simpl.
    destruct (pos_to_grid g x y) as [col row]. simpl in *.
    apply Z.eqb_neq in Hv. rewrite Hv.
    apply not_eq_sym, Z.eqb_neq in Hlr, Hlm, Hrm.
    rewrite !Z.eqb_refl, Hlr, Hlm, Hrm.
    split; [|split].
    + unfold forward_reveal, start_clock, clear_highlight. simpl.
      by destruct (started g).
    + done.
    + do 2 (split; [done|]).
      split; [intros p; apply elem_of_unrevealed_neighbors|done].
Qed.

(** C10: a tertiary-button click keeps [started], the start timestamp and
    the end timestamp, and keeps the board and the configuration; on a
    session that has not started the timer stays stopped and the elapsed
    time stays 0. *)
Theorem tertiary_click_keeps_clock_and_board g now pos :
  config.buttons_distinct (cfg g) →
  let g' := handle_mouse g now pos (config.mouse_middle (cfg g)) in
  started g' = started g
  ∧ start_ticks_ms g' = start_ticks_ms g
  ∧ end_ticks_ms g' = end_ticks_ms g
  ∧ board g' = board g
  ∧ cfg g' = cfg g
  ∧ (started g = false →
     started g' = false ∧ ∀ now', _elapsed_ms g' now' = 0).
Proof.
  intros (Hlr & Hlm & Hrm) g'.
  assert (g' = g ∨ ∃ col row, g' = preview_neighbors g now col row) as Hg'.
  { subst g'. unfold handle_mouse.
    destruct (pos_to_grid _ _ _) as [col row].
    destruct (col =? -1); [by left|].
    apply not_eq_sym, Z.eqb_neq in Hlm, Hrm.
    rewrite Hlm, Hrm, Z.eqb_refl. right. by exists col, row. }
  assert (started g' = started g ∧ start_ticks_ms g' = start_ticks_ms g
          ∧ end_ticks_ms g' = end_ticks_ms g ∧ board g' = board g
          ∧ cfg g' = cfg g) as (H1 & H2 & H3 & H4 & H5).
  { by destruct Hg' as [->|(col & row & ->)]. }
  do 5 (split; [done|]).
  intros Hs. split; [congruence|].
  intros now'. unfold _elapsed_ms. by rewrite H1, Hs.
Qed.

(** ** The hint key *)

(** C7: the hint key leaves the whole game, so the highlight set and its
    expiry, as they were when [get_hint_coordinates] returns no coordinate;
    when it returns one, the highlight set becomes the singleton of that
    coordinate and the expiry becomes the clock reading plus the highlight
    duration. *)
Theorem hint_key_highlight g now :
  (get_hint_coordinates (board g) = None →
     handle_event g now (KEYDOWN K_h) = g
     ∧ highlight_targets (handle_event g now (KEYDOWN K_h))
       = highlight_targets g
     ∧ highlight_until_ms (handle_event g now (KEYDOWN K_h))
       = highlight_until_ms g)
  ∧ (∀ c : Z * Z, get_hint_coordinates (board g) = Some c →
       highlight_targets (handle_event g now (KEYDOWN K_h)) = {[ c ]}
       ∧ highlight_until_ms (handle_event g now (KEYDOWN K_h))
         = now + config.highlight_duration_ms (cfg g)).
Proof.
  simpl. unfold hint. split.
  - by intros ->.
  - by intros c ->.
Qed.

(** ** Drawing *)

Lemma expire_highlight_fields g now :
  cfg (expire_highlight g now) = cfg g
  ∧ board (expire_highlight g now) = board g
  ∧ highlight_until_ms (expire_highlight g now) = highlight_until_ms g
  ∧ started (expire_highlight g now) = started g
  ∧ start_ticks_ms (expire_highlight g now) = start_ticks_ms g
  ∧ end_ticks_ms (expire_highlight g now) = end_ticks_ms g.
Proof. unfold expire_highlight. by case_match. Qed.

(** C8: the header of every frame shows the mine count of the
    configuration minus the number of flags, floored at zero: the
    difference itself while the flags do not exceed the mines, and 0 once
    they do. *)
Theorem header_remaining_mines g t :
  header_mines (draw g t).2
    = 0 `max` (config.num_mines (cfg g) - flagged_count (board g))
  ∧ 0 ≤ header_mines (draw g t).2
  ∧ (flagged_count (board g) ≤ config.num_mines (cfg g) →
     header_mines (draw g t).2
       = config.num_mines (cfg g) - flagged_count (board g))
  ∧ (config.num_mines (cfg g) < flagged_count (board g) →
     header_mines (draw g t).2 = 0)
  ∧ (∀ i running g' f,
       run_step g i = (running, g', Some f) →
       header_mines f
         = 0 `max` (config.num_mines (cfg g') - flagged_count (board g'))
       ∧ 0 ≤ header_mines f).
Proof.
  assert (∀ h u, header_mines (draw h u).2
                 = 0 `max` (config.num_mines (cfg h) - flagged_count (board h)))
    as Hdraw.
  { intros h u. simpl. unfold remaining_mines.
    destruct (expire_highlight_fields h (at_expiry u)) as (-> & -> & _).
    done. }
  rewrite Hdraw. do 4 (split; [lia|]).
  intros i running g' f. unfold run_step.
  destruct (process_events g (events i)) as [[] g1]; [|done].
  intros [= <- <- <-]. simpl. unfold remaining_mines. lia.
Qed.

Lemma draw_cell_not_highlighted (b : Board) col row :
  painted_highlighted (draw_cell b col row false) = false.
Proof. unfold draw_cell. by repeat case_match. Qed.

Lemma highlighted_at_expired g now c r :
  highlight_until_ms g < now → highlighted_at g now c r = false.
Proof.
  intros Hlt. unfold highlighted_at.
  apply andb_false_iff. left. lia.
Qed.

Lemma draw_cells_expired g now :
  highlight_until_ms g < now →
  Forall (λ cell, painted_highlighted cell.2 = false) (draw_cells g now).
Proof.
  intros Hlt. apply Forall_forall. intros cell Hin.
  unfold draw_cells in Hin.
  apply list_elem_of_bind in Hin as (r & Hin & _).
  apply list_elem_of_bind in Hin as (c & Hin & _).
  apply list_elem_of_singleton in Hin as ->. simpl.
  rewrite highlighted_at_expired by done.
  apply draw_cell_not_highlighted.
Qed.

(** C4: a frame whose cell loop reads the clock strictly after the expiry
    of the highlight set shows no cell highlighted, whether the opening
    expiry test cleared the set (it read the clock after the expiry and the
    set was not empty) or left it in place (it read the clock no later than
    the expiry).  Drawing keeps the expiry, so this holds for every frame
    of any number of frames drawn after the expiry. *)
Theorem expired_highlight_not_shown g t :
  highlight_until_ms g < at_cells t →
  (∀ c r, highlighted_at (draw g t).1 (at_cells t) c r = false)
  ∧ Forall (λ cell, painted_highlighted cell.2 = false)
           (frame_cells (draw g t).2)
  ∧ highlight_until_ms (draw g t).1 = highlight_until_ms g
  ∧ (at_expiry t ≤ highlight_until_ms g →
     highlight_targets (draw g t).1 = highlight_targets g)
  ∧ (highlight_until_ms g < at_expiry t →
     highlight_targets (draw g t).1 = ∅)
  ∧ (∀ ts,
       Forall (λ t', highlight_until_ms g < at_cells t') ts →
       Forall (λ f, Forall (λ cell, painted_highlighted cell.2 = false)
                           (frame_cells f))
              (draws g ts)).
Proof.
  intros Hlt.
  assert (∀ (h : Game Board) n, highlight_until_ms (expire_highlight h n)
                                = highlight_until_ms h) as Huntil.
  { intros h n. apply expire_highlight_fields. }
  split; [|split; [|split; [|split; [|split]]]]; simpl.
  - intros c r. apply highlighted_at_expired. by rewrite Huntil.
  - apply draw_cells_expired. by rewrite Huntil.
  - apply Huntil.
  - intros Hle. unfold expire_highlight.
    assert ((highlight_until_ms g <? at_expiry t) = false) as -> by lia.
    done.
  - intros Hgt. unfold expire_highlight.
    assert ((highlight_until_ms g <? at_expiry t) = true) as -> by lia.
    simpl. by case_bool_decide.
  - intros ts. clear Hlt t. revert g.
    induction ts as [|t ts IH]; intros g Hall; simpl; [done|].
    apply Forall_cons in Hall as [Ht Hts].
    constructor; simpl.
    + apply draw_cells_expired. by rewrite Huntil.
    + apply IH. by rewrite Huntil.
Qed.

End Properties.

(** * The properties on the sample board *)

#[global] Instance sample_dims : BoardDims sample.board.
Proof.
  split; try done; intros b c r; simpl;
    unfold sample.reveal, sample.toggle_flag; by case_match.
Qed.

Lemma sample_consistent : consistent sample.fresh.
Proof. apply consistent_init. by repeat split. Qed.

Lemma sample_buttons_distinct : config.buttons_distinct sample.easy.
Proof. by repeat split. Qed.


(** Two primary clicks on the sample board, the second late in the
    session: the start timestamp is that of the first. *)
Lemma primary_click_starts_clock_once_witness :
  let g1 := handle_mouse sample.fresh 100 (40, 80) 1 in
  let g2 := run_actions g1 sample.later in
  let g3 := handle_mouse g2 200 (72, 112) 1 in
  started sample.fresh = false
  ∧ started g1 = true
  ∧ start_ticks_ms g1 = 100
  ∧ board g1 = reveal (board sample.fresh) 1 1
  ∧ start_ticks_ms g3 = 100
  ∧ board g3 = reveal (board g2) 2 2.
Proof.
  intros g1 g2 g3.
  assert ((pos_to_grid sample.fresh 40 80).1 ≠ -1) as Hv by by vm_compute.
  destruct (primary_click_starts_clock_once sample.fresh 100 40 80 Hv)
    as (Hb & Hs & Hn & _ & Hlater).
  destruct (Hlater eq_refl sample.later 200 72 112 eq_refl)
    as (_ & _ & _ & Hn3 & Hb3).
  split; [reflexivity|].
  split; [exact Hs|].
  split; [exact (Hn eq_refl)|].
  split; [exact Hb|].
  split; [exact Hn3|].
  apply Hb3. by vm_compute.
Defined.

(** A preview that expires at 1600, drawn with the cell loop at 1601: the
    set is still in place and no cell is highlighted. *)
Lemma expired_highlight_not_shown_witness :
  let t := {| at_expiry := 1600; at_elapsed := 1600; at_cells := 1601 |} in
  highlight_until_ms sample.previewing = 1600
  ∧ highlight_targets (draw sample.previewing t).1
    = highlight_targets sample.previewing
  ∧ Forall (λ cell, painted_highlighted cell.2 = false)
           (frame_cells (draw sample.previewing t).2).
Proof.
  intros t.
  assert (highlight_until_ms sample.previewing < at_cells t) as Hlt
    by by vm_compute.
  destruct (expired_highlight_not_shown sample.previewing t Hlt)
    as (_ & Hcells & _ & Hkept & _).
  split; [reflexivity|].
  split; [apply Hkept; by vm_compute|exact Hcells].
Defined.

(** Pixels outside and inside the EASY playing field. *)
Lemma pos_to_grid_playing_field_witness :
  pos_to_grid sample.fresh 0 0 = invalid
  ∧ pos_to_grid sample.fresh 296 100 = invalid
  ∧ pos_to_grid sample.fresh 295 335 = (8, 8)
  ∧ 0 ≤ (pos_to_grid sample.fresh 40 80).1 < board_cols (board sample.fresh).
Proof.
  destruct (pos_to_grid_playing_field sample.fresh 0 0 sample_consistent)
    as [Hout _].
  destruct (pos_to_grid_playing_field sample.fresh 296 100 sample_consistent)
    as [Hout' _].
  destruct (pos_to_grid_playing_field sample.fresh 295 335 sample_consistent)
    as [_ Hin].
  destruct (pos_to_grid_playing_field sample.fresh 40 80 sample_consistent)
    as [_ Hin'].
  split; [apply Hout; unfold in_playing_field; simpl; lia|].
  split; [apply Hout'; unfold in_playing_field; simpl; lia|].
  split.
  - destruct Hin as [Heq _]; [unfold in_playing_field; simpl; lia|exact Heq].
  - destruct Hin' as (_ & Hcol & _); [unfold in_playing_field; simpl; lia|].
    exact Hcol.
Defined.

(** The three buttons on the sample board while a preview is shown. *)
Lemma mouse_click_highlight_witness :
  handle_mouse sample.previewing 300 (0, 0) 1 = sample.previewing
  ∧ highlight_targets (handle_mouse sample.previewing 300 (40, 80) 1) = ∅
  ∧ highlight_targets (handle_mouse sample.previewing 300 (40, 80) 3) = ∅
  ∧ highlight_targets (handle_mouse sample.previewing 300 (8, 48) 2)
    = unrevealed_neighbors (board sample.previewing) 0 0
  ∧ highlight_until_ms (handle_mouse sample.previewing 300 (8, 48) 2) = 1800.
Proof.
  destruct (mouse_click_highlight sample.previewing 300 0 0
              sample_buttons_distinct) as [Hinvalid _].
  destruct (mouse_click_highlight sample.previewing 300 40 80
              sample_buttons_distinct) as [_ Hvalid].
  destruct (mouse_click_highlight sample.previewing 300 8 48
              sample_buttons_distinct) as [_ Hvalid'].
  destruct Hvalid as ((_ & Hl & _) & (_ & Hr & _) & _); [by vm_compute|].
  destruct Hvalid' as (_ & _ & (_ & Hm & _ & Hu & _)); [by vm_compute|].
  split; [apply Hinvalid; reflexivity|].
  split; [exact Hl|].
  split; [exact Hr|].
  split; [exact Hm|exact Hu].
Defined.

(** A preview on the fresh sample board leaves its timer stopped. *)
Lemma tertiary_click_keeps_clock_and_board_witness :
  started (handle_mouse sample.fresh 100 (40, 80) 2) = false
  ∧ start_ticks_ms (handle_mouse sample.fresh 100 (40, 80) 2) = 0
  ∧ end_ticks_ms (handle_mouse sample.fresh 100 (40, 80) 2) = 0
  ∧ board (handle_mouse sample.fresh 100 (40, 80) 2) = board sample.fresh
  ∧ _elapsed_ms (handle_mouse sample.fresh 100 (40, 80) 2) 5000 = 0.
Proof.
  destruct (tertiary_click_keeps_clock_and_board sample.fresh 100 (40, 80)
              sample_buttons_distinct) as (Hs & Hst & He & Hb & _ & Hfresh).
  destruct (Hfresh eq_refl) as [_ Hel].
  split; [exact Hs|].
  split; [exact Hst|].
  split; [exact He|].
  split; [exact Hb|exact (Hel 5000)].
Defined.

(** The hint key on a board without a hint and on one with the hint
    (1, 1). *)
Lemma hint_key_highlight_witness :
  handle_event sample.hintless 700 (KEYDOWN K_h) = sample.hintless
  ∧ highlight_targets (handle_event sample.previewing 700 (KEYDOWN K_h))
    = {[ (1, 1) ]}
  ∧ highlight_until_ms (handle_event sample.previewing 700 (KEYDOWN K_h))
    = 2200.
Proof.
  destruct (hint_key_highlight sample.hintless 700) as [Hnone _].
  destruct (hint_key_highlight sample.previewing 700) as [_ Hsome].
  destruct (Hnone eq_refl) as [Hsame _].
  destruct (Hsome (1, 1) eq_refl) as [Hset Huntil].
  split; [exact Hsame|].
  split; [exact Hset|exact Huntil].
Defined.

(** One flag against ten mines shows 9; one flag against no mine shows
    0. *)
Lemma header_remaining_mines_witness :
  let t := {| at_expiry := 60; at_elapsed := 60; at_cells := 61 |} in
  header_mines (draw sample.one_flag t).2 = 9
  ∧ header_mines (draw sample.overflagged t).2 = 0.
Proof.
  intros t.
  destruct (header_remaining_mines sample.one_flag t)
    as (_ & _ & Hle & _).
  destruct (header_remaining_mines sample.overflagged t)
    as (_ & _ & _ & Hgt & _).
  split; [apply Hle; by vm_compute|apply Hgt; by vm_compute].
Defined.

(** A click in the margin of the sample board changes nothing. *)
Lemma pos_to_grid_sentinel_or_in_bounds_witness :
  handle_mouse sample.fresh 100 (0, 0) 1 = sample.fresh
  ∧ ((pos_to_grid sample.fresh 300 100).1 = -1
     ↔ pos_to_grid sample.fresh 300 100 = invalid).
Proof.
  destruct (pos_to_grid_sentinel_or_in_bounds sample.fresh 0 0)
    as (_ & _ & _ & Hreject).
  destruct (pos_to_grid_sentinel_or_in_bounds sample.fresh 300 100)
    as (_ & Hiff & _).
  split; [apply Hreject; left; reflexivity|exact Hiff].
Defined.

(** * Further properties of the frame and the draw step *)

Section Frames.

Context {Board : Type} `{BM : BoardModel Board}.

Implicit Types (g : Game Board) (t : DrawTicks).

Lemma format_time_zero : _format_time 0 = "00:00 (0s)".
Proof. reflexivity. Qed.

Lemma elapsed_not_started g now : started g = false → _elapsed_ms g now = 0.
Proof. intros Hs. unfold _elapsed_ms. by rewrite Hs. Qed.

Lemma header_time_not_started g t :
  started g = false → header_time (draw g t).2 = "00:00 (0s)".
Proof.
  intros Hs. simpl. rewrite elapsed_not_started; [apply format_time_zero|].
  destruct (expire_highlight_fields g (at_expiry t)) as (_ & _ & _ & -> & _).
  done.
Qed.

(** X1: while the session has not started, the elapsed time is 0 at every
    clock reading, and a frame drawn then shows the time text
    [00:00 (0s)]. *)
Theorem elapsed_zero_until_started g :
  started g = false →
  ∀ now t,
    _elapsed_ms g now = 0
    ∧ header_time (draw g t).2 = "00:00 (0s)".
Proof.
  intros Hs now t.
  split; [by apply elapsed_not_started|by apply header_time_not_started].
Qed.

Lemma highlighted_at_empty g now c r :
  highlight_targets g = ∅ → highlighted_at g now c r = false.
Proof.
  intros He. unfold highlighted_at. rewrite He.
  apply andb_false_iff. right. by apply bool_decide_eq_false_2.
Qed.

Lemma draw_empty_highlight g t :
  highlight_targets g = ∅ →
  (draw g t).1 = g
  ∧ Forall (λ cell, painted_highlighted cell.2 = false)
           (frame_cells (draw g t).2).
Proof.
  intros He.
  assert (expire_highlight g (at_expiry t) = g) as Hsame.
  { unfold expire_highlight. rewrite He.
    rewrite bool_decide_eq_true_2 by done. by rewrite andb_false_r. }
  simpl. rewrite Hsame. split; [done|].
  apply Forall_forall. intros cell Hin. unfold draw_cells in Hin.
  apply list_elem_of_bind in Hin as (r & Hin & _).
  apply list_elem_of_bind in Hin as (c & Hin & _).
  apply list_elem_of_singleton in Hin as ->. simpl.
  rewrite highlighted_at_empty by done.
  apply draw_cell_not_highlighted.
Qed.

(** X3: on the state left by [Game.__init__], by [reset] or by
    [set_difficulty], [draw] changes nothing and paints no cell highlighted,
    whatever the clock reads (also at readings not after the cleared expiry
    0), and the time text is [00:00 (0s)]. *)
Theorem fresh_session_frame g t :
  ∀ g',
    g' = reset g
    ∨ (∃ cols rows mines, g' = set_difficulty g cols rows mines)
    ∨ (∃ c, g' = Game_init c) →
    (draw g' t).1 = g'
    ∧ Forall (λ cell, painted_highlighted cell.2 = false)
             (frame_cells (draw g' t).2)
    ∧ header_time (draw g' t).2 = "00:00 (0s)".
Proof.
  intros g' Hg'.
  assert (highlight_targets g' = ∅ ∧ started g' = false) as [He Hs].
  { destruct Hg' as [->|[(cols & rows & mines & ->)|(c & ->)]]; done. }
  destruct (draw_empty_highlight g' t He) as [H1 H2].
  split; [done|]. split; [done|].
  by apply header_time_not_started.
Qed.

Lemma expire_highlight_empty g now :
  highlight_targets g = ∅ → expire_highlight g now = g.
Proof.
  intros He. unfold expire_highlight.
  rewrite (bool_decide_eq_true_2 _ He). by rewrite andb_false_r.
Qed.

Lemma expire_highlight_early g now :
  now ≤ highlight_until_ms g → expire_highlight g now = g.
Proof.
  intros Hle. unfold expire_highlight.
  assert ((highlight_until_ms g <? now) = false) as -> by lia. done.
Qed.

Lemma expire_highlight_late g now :
  highlight_until_ms g < now → highlight_targets (expire_highlight g now) = ∅.
Proof.
  intros Hlt. unfold expire_highlight.
  assert ((highlight_until_ms g <? now) = true) as -> by lia. simpl.
  by case_bool_decide.
Qed.

(** X13: [draw] changes nothing of the game but the highlight set, which it
    either keeps or empties; it empties it exactly when the set was empty
    already or the opening test reads the clock after the expiry; and a
    second [draw] whose opening test reads no later clock changes nothing
    more. *)
Theorem draw_only_expires_highlight g t :
  cfg (draw g t).1 = cfg g
  ∧ screen (draw g t).1 = screen g
  ∧ board (draw g t).1 = board g
  ∧ highlight_until_ms (draw g t).1 = highlight_until_ms g
  ∧ clock_of (draw g t).1 = clock_of g
  ∧ (highlight_targets (draw g t).1 = highlight_targets g
     ∨ highlight_targets (draw g t).1 = ∅)
  ∧ (highlight_targets (draw g t).1 = ∅
     ↔ highlight_targets g = ∅ ∨ highlight_until_ms g < at_expiry t)
  ∧ (∀ t', at_expiry t' ≤ at_expiry t → (draw (draw g t).1 t').1 = (draw g t).1).
Proof.
  simpl. unfold clock_of.
  destruct (expire_highlight_fields g (at_expiry t))
    as (-> & -> & Hu & -> & -> & ->).
  assert (screen (expire_highlight g (at_expiry t)) = screen g) as ->.
  { unfold expire_highlight. by case_match. }
  rewrite Hu. do 5 (split; [done|]).
  destruct (decide (highlight_until_ms g < at_expiry t)) as [Hlt|Hge].
  - pose proof (expire_highlight_late g _ Hlt) as He.
    split; [by right|]. split; [split; [by right|done]|].
    intros t' _. by apply expire_highlight_empty.
  - rewrite expire_highlight_early by lia.
    split; [by left|]. split; [split; [by left|intros [?|?]; [done|lia]]|].
    intros t' Hle. apply expire_highlight_early. lia.
Qed.

(** X14: the overlay of a frame reads GAME OVER exactly when the board
    reports [game_over], GAME CLEAR exactly when it reports [win] and not
    [game_over], and is absent exactly when it reports neither; a board
    reporting both flags is shown as GAME OVER. *)
Theorem overlay_follows_board g t :
  (frame_overlay (draw g t).2 = Some "GAME OVER"
   ↔ game_over (board g) = true)
  ∧ (frame_overlay (draw g t).2 = Some "GAME CLEAR"
     ↔ game_over (board g) = false ∧ win (board g) = true)
  ∧ (frame_overlay (draw g t).2 = None
     ↔ game_over (board g) = false ∧ win (board g) = false).
Proof.
  simpl. unfold _result_text.
  destruct (expire_highlight_fields g (at_expiry t)) as (_ & -> & _).
  destruct (game_over (board g)), (win (board g)); simpl;
    repeat split; try done; by intros [? ?].
Qed.

Lemma length_bind_const {A B} (f : A → list B) (l : list A) (n : nat) :
  (∀ x, length (f x) = n) → length (l ≫= f) = (length l * n)%nat.
Proof.
  intros Hf. induction l as [|x l IH]; [done|].
  rewrite bind_cons, length_app, Hf, IH. simpl. lia.
Qed.

Lemma elem_of_draw_cells g now (cell : Z * Z * CellDraw) :
  cell ∈ draw_cells g now
  ↔ (0 ≤ cell.1.1 < board_cols (board g)
     ∧ 0 ≤ cell.1.2 < board_rows (board g))
    ∧ cell.2 = draw_cell (board g) cell.1.1 cell.1.2
                 (highlighted_at g now cell.1.1 cell.1.2).
Proof.
  unfold draw_cells. rewrite list_elem_of_bind. split.
  - intros (r & Hin & Hr). apply list_elem_of_bind in Hin as (c & Hin & Hc).
    apply list_elem_of_singleton in Hin as ->. simpl.
    apply elem_of_seqZ in Hr, Hc. split; [lia|done].
  - destruct cell as [[c r] d]. simpl. intros [[Hc Hr] ->].
    exists r. split; [|apply elem_of_seqZ; lia].
    apply list_elem_of_bind. exists c.
    split; [apply list_elem_of_singleton; done|apply elem_of_seqZ; lia].
Qed.

Lemma draw_cells_coordinates g now :
  (draw_cells g now).*1
  = (r ← seqZ 0 (board_rows (board g));
     c ← seqZ 0 (board_cols (board g)); [ (c, r) ]).
Proof.
  unfold draw_cells.
  generalize (seqZ 0 (board_cols (board g))). intros cs.
  induction (seqZ 0 (board_rows (board g))) as [|r rs IH]; [done|].
  rewrite !bind_cons, fmap_app, IH. f_equal. clear IH.
  induction cs as [|c cs IHc]; [done|].
  rewrite !bind_cons, fmap_app, IHc. done.
Qed.

(** X10: a frame holds one picture for every cell of the board and none
    for anything else: the coordinates in the frame are without
    repetition, they are exactly the pairs within the bounds of the board,
    their number is rows times columns (none for a non-positive
    dimension), and each picture is that of [draw_cell] for its own
    cell. *)
Theorem draw_covers_grid g t :
  NoDup (frame_cells (draw g t).2).*1
  ∧ (∀ c r, (c, r) ∈ (frame_cells (draw g t).2).*1
            ↔ 0 ≤ c < board_cols (board g) ∧ 0 ≤ r < board_rows (board g))
  ∧ length (frame_cells (draw g t).2)
    = (Z.to_nat (board_rows (board g)) * Z.to_nat (board_cols (board g)))%nat
  ∧ (∀ c r d, (c, r, d) ∈ frame_cells (draw g t).2 →
       d = draw_cell (board g) c r
             (highlighted_at (draw g t).1 (at_cells t) c r)).
Proof.
  simpl.
  destruct (expire_highlight_fields g (at_expiry t)) as (_ & Hb & _).
  set (g' := expire_highlight g (at_expiry t)) in *.
  rewrite <- Hb. split; [|split; [|split]].
  - rewrite draw_cells_coordinates. apply NoDup_bind.
    + intros r1 r2 p _ _ H1 H2.
      apply list_elem_of_bind in H1 as (c1 & H1 & _).
      apply list_elem_of_bind in H2 as (c2 & H2 & _).
      apply list_elem_of_singleton in H1, H2. congruence.
    + intros r _. apply NoDup_bind.
      * intros c1 c2 p _ _ H1 H2.
        apply list_elem_of_singleton in H1, H2. congruence.
      * intros c _. apply NoDup_singleton.
      * apply NoDup_seqZ.
    + apply NoDup_seqZ.
  - intros c r. rewrite list_elem_of_fmap. split.
    + intros (cell & Hcr & Hin). apply elem_of_draw_cells in Hin as [Hin _].
      destruct cell as [[c' r'] d]. simpl in *. by injection Hcr as -> ->.
    + intros Hin.
      exists (c, r, draw_cell (board g') c r
                      (highlighted_at g' (at_cells t) c r)).
      split; [done|]. by apply elem_of_draw_cells.
  - unfold draw_cells.
    rewrite (length_bind_const _ _ (Z.to_nat (board_cols (board g')))).
    + by rewrite length_seqZ.
    + intros r. rewrite (length_bind_const _ _ 1%nat); [|done].
      rewrite length_seqZ. lia.
  - intros c r d Hin. by apply elem_of_draw_cells in Hin as [_ Hd].
Qed.

Lemma painted_iff g t c r d :
  (c, r, d) ∈ frame_cells (draw g t).2 →
  (painted_highlighted d = true
   ↔ at_cells t ≤ highlight_until_ms g
     ∧ at_expiry t ≤ highlight_until_ms g
     ∧ (c, r) ∈ highlight_targets g
     ∧ is_revealed (cell_state (board g) c r) = false).
Proof.
  intros Hin. simpl in Hin.
  apply elem_of_draw_cells in Hin as [_ Hd]. simpl in Hd.
  destruct (expire_highlight_fields g (at_expiry t)) as (_ & Hb & Hu & _).
  rewrite Hb in Hd. subst d.
  unfold draw_cell, highlighted_at. rewrite Hu.
  destruct (decide (highlight_until_ms g < at_expiry t)) as [Hlt|Hge].
  - rewrite (expire_highlight_late g _ Hlt).
    rewrite (bool_decide_eq_false_2 ((c, r) ∈ (∅ : gset (Z * Z))))
      by set_solver.
    rewrite andb_false_r.
    split; [by repeat case_match|intros (_ & ? & _); lia].
  - rewrite expire_highlight_early by lia.
    destruct (is_revealed (cell_state (board g) c r)).
    { split; [by repeat case_match|by intros (_ & _ & _ & ?)]. }
    simpl. case_bool_decide as Hm.
    + rewrite andb_true_r.
      destruct (at_cells t <=? highlight_until_ms g) eqn:Hle.
      * split; [|done]. intros _. repeat split; try done; lia.
      * split; [done|]. intros (? & _). lia.
    + rewrite andb_false_r. split; [done|]. by intros (_ & _ & ? & _).
Qed.

(** X11: a cell of a frame is painted in the highlight colour exactly when
    the cell loop reads the clock no later than the expiry, the opening
    test did not read it after the expiry, the cell is in the highlight set
    and it is not revealed. *)
Theorem highlight_painted_iff g t c r d :
  (c, r, d) ∈ frame_cells (draw g t).2 →
  (painted_highlighted d = true
   ↔ at_cells t ≤ highlight_until_ms g
     ∧ at_expiry t ≤ highlight_until_ms g
     ∧ (c, r) ∈ highlight_targets g
     ∧ is_revealed (cell_state (board g) c r) = false).
Proof. apply painted_iff. Qed.

End Frames.

(** * What each step may change, and how the loop ends *)

Section Steps.

Context {Board : Type} `{BM : BoardModel Board}.

Implicit Types (g : Game Board) (a : Action).

Lemma handle_mouse_cases g now pos button :
  handle_mouse g now pos button = g
  ∨ (∃ col row,
       (button = config.mouse_left (cfg g)
        ∧ handle_mouse g now pos button
          = forward_reveal (start_clock (clear_highlight g) now) col row)
       ∨ (button ≠ config.mouse_left (cfg g)
          ∧ button = config.mouse_right (cfg g)
          ∧ handle_mouse g now pos button
            = forward_toggle_flag (clear_highlight g) col row)
       ∨ (button ≠ config.mouse_left (cfg g)
          ∧ button ≠ config.mouse_right (cfg g)
          ∧ handle_mouse g now pos button = preview_neighbors g now col row)).
Proof.
  unfold handle_mouse. destruct (pos_to_grid _ _ _) as [col row].
  destruct (col =? -1); [by left|].
  destruct (button =? config.mouse_left (cfg g)) eqn:Hl.
  { right. exists col, row. left. split; [lia|done]. }
  destruct (button =? config.mouse_right (cfg g)) eqn:Hr.
  { right. exists col, row. right. left. split; [lia|]. split; [lia|done]. }
  destruct (button =? config.mouse_middle (cfg g)); [|by left].
  right. exists col, row. right. right. split; [lia|]. split; [lia|done].
Qed.

(** X4: the session clock ([started] and the two timestamps) is changed by
    nothing but a primary-button click, a reset or difficulty key, and the
    end check: every other event, a secondary or tertiary click or a hint
    among them, and every draw leave it as it is. *)
Theorem clock_changes_only_by g a :
  clock_of (act g a) ≠ clock_of g → changes_clock g a = true.
Proof.
  intros Hne. destruct (changes_clock g a) eqn:Hc; [done|].
  exfalso. apply Hne. clear Hne. unfold clock_of.
  destruct a as [now e|now|t]; simpl in *; [|done|].
  - destruct e as [|k|pos button|]; simpl in *; try done.
    + destruct k; try done. simpl. unfold hint. by case_match.
    + destruct (handle_mouse_cases g now pos button)
        as [->|(col & row & [[? _]|[(_ & _ & ->)|(_ & _ & ->)]])];
        try done. lia.
  - by destruct (expire_highlight_fields g (at_expiry t))
      as (_ & _ & _ & -> & -> & ->).
Qed.

(** X5: the board is changed by nothing but a primary or secondary click
    and a reset or difficulty key: a tertiary click, the hint key, the
    end check and every draw leave the board as it is. *)
Theorem board_changes_only_by g a :
  board (act g a) ≠ board g → changes_board g a = true.
Proof.
  intros Hne. destruct (changes_board g a) eqn:Hc; [done|].
  exfalso. apply Hne. clear Hne.
  destruct a as [now e|now|t]; simpl in *.
  - destruct e as [|k|pos button|]; simpl in *; try done.
    + destruct k; try done. simpl. unfold hint. by case_match.
    + apply orb_false_iff in Hc as [Hl Hr].
      destruct (handle_mouse_cases g now pos button)
        as [->|(col & row & [[? _]|[(_ & ? & _)|(_ & _ & ->)]])];
        try done; lia.
  - unfold end_check. by case_match.
  - by destruct (expire_highlight_fields g (at_expiry t)) as (_ & -> & _).
Qed.

Lemma cfg_act g a :
  cfg (act g a) = cfg g
  ∨ (changes_config a = true
     ∧ ∃ cols rows mines,
         cfg (act g a) = config.set_difficulty (cfg g) cols rows mines).
Proof.
  destruct a as [now e|now|t]; simpl.
  - destruct e as [|k|pos button|]; simpl; try (by left).
    + destruct k; simpl; try (by left);
        try (right; split; [done|]; by eexists _, _, _).
      unfold hint. left. by case_match.
    + left.
      destruct (handle_mouse_cases g now pos button)
        as [->|(col & row & [[_ ->]|[(_ & _ & ->)|(_ & _ & ->)]])];
        try done.
      unfold forward_reveal, start_clock. simpl. by destruct (started g).
  - left. unfold end_check. by case_match.
  - left. by destruct (expire_highlight_fields g (at_expiry t)) as (-> & _).
Qed.

(** X6: the configuration is changed by nothing but the three difficulty
    keys, and the layout constants (margins, cell size, highlight duration,
    mouse-button codes) keep their start-up values along every run,
    difficulty changes included. *)
Theorem config_changes_only_by g :
  (∀ a, cfg (act g a) ≠ cfg g → changes_config a = true)
  ∧ (∀ acts,
       layout_constants (cfg (run_actions g acts)) = layout_constants (cfg g)).
Proof.
  split.
  - intros a Hne. by destruct (cfg_act g a) as [?|[? _]].
  - intros acts. unfold run_actions. revert g.
    induction acts as [|a acts IH]; intros g; simpl; [done|].
    rewrite IH.
    by destruct (cfg_act g a) as [->|(_ & cols & rows & mines & ->)].
Qed.

(** X7: inputs the handlers do not name are ignored: an event that is
    neither QUIT, KEYDOWN nor MOUSEBUTTONDOWN, a key other than R, 1, 2, 3
    and H, and a mouse button other than the three configured ones (a wheel
    step, say) leave the whole game as it is, at any position. *)
Theorem unhandled_input_ignored g now :
  handle_event g now OTHER = g
  ∧ handle_event g now (KEYDOWN K_other) = g
  ∧ (∀ pos button,
       button ≠ config.mouse_left (cfg g) →
       button ≠ config.mouse_right (cfg g) →
       button ≠ config.mouse_middle (cfg g) →
       handle_event g now (MOUSEBUTTONDOWN pos button) = g).
Proof.
  do 2 (split; [done|]). intros pos button Hl Hr Hm. simpl.
  unfold handle_mouse. destruct (pos_to_grid _ _ _) as [col row].
  apply Z.eqb_neq in Hl, Hr, Hm. rewrite Hl, Hr, Hm. by case_match.
Qed.

Lemma process_events_no_quit g evs :
  has_quit evs = false → (process_events g evs).1 = true.
Proof.
  revert g. induction evs as [|[now e] evs IH]; intros g; [done|].
  destruct e; simpl; try done; apply IH.
Qed.

Lemma process_events_quit g evs1 now evs2 :
  has_quit evs1 = false →
  process_events g (evs1 ++ (now, QUIT) :: evs2)
  = (false, (process_events g evs1).2).
Proof.
  revert g. induction evs1 as [|[now' e] evs1 IH]; intros g; [done|].
  destruct e; simpl; try done; apply IH.
Qed.

Lemma has_quit_split evs :
  has_quit evs = true →
  ∃ evs1 now evs2,
    evs = evs1 ++ (now, QUIT) :: evs2 ∧ has_quit evs1 = false.
Proof.
  induction evs as [|[now e] evs IH]; [done|].
  destruct e; simpl.
  { intros _. by exists [], now, evs. }
  all: intros (evs1 & n & evs2 & -> & Hq)%IH.
  all: by eexists (_ :: evs1), n, evs2.
Qed.

(** X8: [run_step] returns [False] exactly when the drained queue holds a
    QUIT event.  It then neither runs the end check nor draws: no frame is
    produced, and the game is left as the events before the first QUIT
    left it, whatever follows the QUIT in the queue.  Without a QUIT it
    returns [True] with a frame. *)
Theorem run_step_quit g i :
  (run_step g i).1.1 = negb (has_quit (events i))
  ∧ (is_Some (run_step g i).2 ↔ has_quit (events i) = false)
  ∧ (∀ evs1 now evs2,
       events i = evs1 ++ (now, QUIT) :: evs2 →
       has_quit evs1 = false →
       run_step g i = (false, (process_events g evs1).2, None)).
Proof.
  assert (∀ evs1 now evs2,
            events i = evs1 ++ (now, QUIT) :: evs2 →
            has_quit evs1 = false →
            run_step g i = (false, (process_events g evs1).2, None)) as Hcut.
  { intros evs1 now evs2 Hev Hq1. unfold run_step.
    by rewrite Hev, process_events_quit. }
  destruct (has_quit (events i)) eqn:Hq.
  - destruct (has_quit_split _ Hq) as (evs1 & now & evs2 & Hev & Hq1).
    split; [|split; [|done]]; rewrite (Hcut _ _ _ Hev Hq1); simpl; [done|].
    split; [by intros [? ?]|done].
  - split; [|split; [|done]]; unfold run_step;
      pose proof (process_events_no_quit g _ Hq) as Hrun;
      destruct (process_events g (events i)) as [running g1];
      simpl in Hrun; subst running; simpl; [done|].
    split; [done|by eexists].
Qed.

Lemma main_loop_app_running g fs1 fs2 :
  forallb (λ i, negb (has_quit (events i))) fs1 = true →
  main_loop g (fs1 ++ fs2) = main_loop (main_loop g fs1) fs2.
Proof.
  revert g. induction fs1 as [|i fs1 IH]; intros g; [done|].
  simpl. intros [Hi Hfs]%andb_true_iff.
  destruct (run_step_quit g i) as (Hrun & _).
  destruct (run_step g i) as [[running g'] f]. simpl in Hrun.
  rewrite Hrun, Hi. by apply IH.
Qed.

(** X9: the loop of [main] ends with the first frame whose queue holds a
    QUIT: the game it ends with is the one that [run_step] leaves, and
    the frames that would follow are never run. *)
Theorem main_loop_stops_at_quit g fs1 i fs2 :
  forallb (λ i, negb (has_quit (events i))) fs1 = true →
  has_quit (events i) = true →
  main_loop g (fs1 ++ i :: fs2) = (run_step (main_loop g fs1) i).1.2
  ∧ main_loop g (fs1 ++ i :: fs2) = main_loop g (fs1 ++ [i]).
Proof.
  intros Hfs Hq.
  rewrite !main_loop_app_running by done. simpl.
  destruct (run_step_quit (main_loop g fs1) i) as (Hrun & _).
  destruct (run_step (main_loop g fs1) i) as [[running g'] f].
  simpl in *. rewrite Hrun, Hq. done.
Qed.

End Steps.

(** * The timer and the highlight along a run *)

Section Runs.

Context {Board : Type} `{BM : BoardModel Board}.

Implicit Types (g : Game Board) (a : Action).

Lemma last_cons_default (x : Z) (l : list Z) (m : Z) :
  List.last (x :: l) m = List.last l x.
Proof.
  assert (∀ (k : list Z) y d d', List.last (y :: k) d = List.last (y :: k) d')
    as Hirrel.
  { induction k as [|z k IH]; intros y d d'; [done|].
    change (List.last (z :: k) d = List.last (z :: k) d'). apply IH. }
  destruct l as [|y l]; [done|].
  change (List.last (y :: l) m = List.last (y :: l) x). apply Hirrel.
Qed.

Lemma nondecreasing_from_app m l1 l2 :
  nondecreasing_from m (l1 ++ l2)
  = nondecreasing_from m l1 && nondecreasing_from (List.last l1 m) l2.
Proof.
  revert m. induction l1 as [|x l1 IH]; intros m; [done|].
  rewrite last_cons_default. cbn [app nondecreasing_from].
  by rewrite IH, andb_assoc.
Qed.

Lemma last_app_default (l1 l2 : list Z) m :
  List.last (l1 ++ l2) m = List.last l2 (List.last l1 m).
Proof.
  revert m. induction l1 as [|x l1 IH]; intros m; [done|].
  cbn [app]. by rewrite !last_cons_default, IH.
Qed.

Lemma nondecreasing_from_last m l :
  nondecreasing_from m l = true → m ≤ List.last l m.
Proof.
  revert m. induction l as [|x l IH]; intros m; [simpl; lia|].
  rewrite last_cons_default. cbn [nondecreasing_from].
  intros [Hx Hl]%andb_true_iff. apply IH in Hl. lia.
Qed.

(** With a clock that never goes back, the start timestamp of a started
    session is no later than the last reading and no later than a set end
    timestamp. *)
Lemma clock_order_act g a m :
  nondecreasing_from m (readings a) = true →
  clock_inv g →
  (started g = true →
     start_ticks_ms g ≤ m
     ∧ (end_ticks_ms g ≠ 0 → start_ticks_ms g ≤ end_ticks_ms g)) →
  started (act g a) = true →
  start_ticks_ms (act g a) ≤ List.last (readings a) m
  ∧ (end_ticks_ms (act g a) ≠ 0 →
     start_ticks_ms (act g a) ≤ end_ticks_ms (act g a)).
Proof.
  intros Hm Hinv Hord.
  pose proof (nondecreasing_from_last _ _ Hm) as Hlast.
  destruct a as [now e|now|t]; simpl in *.
  - destruct e as [|k|pos button|]; simpl; try (intros Hs; specialize (Hord Hs); lia).
    + destruct k; simpl; try done; try (intros Hs; specialize (Hord Hs); lia).
      unfold hint. case_match; simpl; intros Hs; specialize (Hord Hs); lia.
    + destruct (handle_mouse_cases g now pos button)
        as [->|(col & row & [[_ ->]|[(_ & _ & ->)|(_ & _ & ->)]])];
        simpl; try (intros Hs; specialize (Hord Hs); lia).
      unfold start_clock. simpl.
      destruct (started g) eqn:Hs; simpl.
      * intros _. specialize (Hord eq_refl). lia.
      * intros _. split; [lia|]. intros He. apply Hinv in He. congruence.
  - unfold end_check. destruct (end_check_fires g) eqn:Hf; simpl.
    + intros Hs. specialize (Hord Hs). lia.
    + intros Hs. specialize (Hord Hs). lia.
  - destruct (expire_highlight_fields g (at_expiry t))
      as (_ & _ & _ & -> & -> & ->).
    intros Hs. specialize (Hord Hs). lia.
Qed.

Lemma clock_order_run g acts m :
  nondecreasing_from m (acts ≫= readings) = true →
  clock_inv g →
  (started g = true →
     start_ticks_ms g ≤ m
     ∧ (end_ticks_ms g ≠ 0 → start_ticks_ms g ≤ end_ticks_ms g)) →
  started (run_actions g acts) = true →
  start_ticks_ms (run_actions g acts) ≤ List.last (acts ≫= readings) m
  ∧ (end_ticks_ms (run_actions g acts) ≠ 0 →
     start_ticks_ms (run_actions g acts) ≤ end_ticks_ms (run_actions g acts)).
Proof.
  unfold run_actions. revert g m.
  induction acts as [|a acts IH]; intros g m Hm Hinv Hord; [done|].
  rewrite bind_cons in *. rewrite nondecreasing_from_app in Hm.
  apply andb_true_iff in Hm as [Ha Hacts].
  rewrite last_app_default. simpl.
  apply IH; [done|by apply clock_inv_act|].
  by apply clock_order_act.
Qed.

(** X2: with clock readings that start at 0 or later and never go back,
    the elapsed time is never negative: in every state the program reaches
    from its start, at every query no earlier than the last reading. *)
Theorem elapsed_never_negative (c : config.t) (acts : list Action) (now : Z) :
  nondecreasing_from 0 (acts ≫= readings) = true →
  List.last (acts ≫= readings) 0 ≤ now →
  0 ≤ _elapsed_ms (run_actions (Game_init c) acts) now.
Proof.
  intros Hm Hnow.
  pose proof (clock_order_run (Game_init c) acts 0 Hm) as Hord.
  unfold _elapsed_ms.
  destruct (started (run_actions (Game_init c) acts)) eqn:Hs; simpl; [|lia].
  destruct Hord as [H1 H2]; [by intros ?|done|done|].
  destruct (end_ticks_ms (run_actions (Game_init c) acts) =? 0) eqn:He;
    simpl; lia.
Qed.

(** X22: the frame of the very step whose end check sets the end timestamp
    already shows the frozen time: the end check runs before the draw, so
    the time text is that of the end-check reading minus the start
    timestamp, whatever the clock reads during the draw. *)
Theorem ending_frame_shows_frozen_time g (i : FrameInput) g1 :
  process_events g (events i) = (true, g1) →
  end_check_fires g1 = true →
  at_end_check i ≠ 0 →
  ∃ g' f,
    run_step g i = (true, g', Some f)
    ∧ end_ticks_ms g' = at_end_check i
    ∧ header_time f = _format_time (at_end_check i - start_ticks_ms g1)
    ∧ ∀ now, _elapsed_ms g' now = at_end_check i - start_ticks_ms g1.
Proof.
  intros Hev Hf Hnz. unfold run_step. rewrite Hev.
  unfold end_check. rewrite Hf. simpl.
  eexists _, _. split; [done|].
  assert (started g1 = true) as Hs.
  { unfold end_check_fires in Hf. destruct (started g1); [done|].
    by rewrite andb_false_r in Hf. }
  destruct (expire_highlight_fields (set_end_ticks_ms g1 (at_end_check i))
              (at_expiry (at_draw i))) as (_ & _ & _ & Hst & Hstart & Hend).
  simpl in Hst, Hstart, Hend.
  assert (∀ now, _elapsed_ms
            (expire_highlight (set_end_ticks_ms g1 (at_end_check i))
               (at_expiry (at_draw i))) now
          = at_end_check i - start_ticks_ms g1) as Hel.
  { intros now. rewrite elapsed_ended; [by rewrite Hend, Hstart|congruence|].
    by rewrite Hend. }
  split; [done|]. split; [by rewrite Hel|done].
Qed.

Lemma pos_to_grid_same g g' x y :
  cfg g' = cfg g → board g' = board g →
  pos_to_grid g' x y = pos_to_grid g x y.
Proof. intros Hc Hb. unfold pos_to_grid. by rewrite Hc, Hb. Qed.

Lemma handle_mouse_middle g now pos :
  config.buttons_distinct (cfg g) →
  handle_mouse g now pos (config.mouse_middle (cfg g))
  = if (pos_to_grid g pos.1 pos.2).1 =? -1 then g
    else preview_neighbors g now (pos_to_grid g pos.1 pos.2).1
                                 (pos_to_grid g pos.1 pos.2).2.
Proof.
  intros (Hlr & Hlm & Hrm). unfold handle_mouse.
  destruct (pos_to_grid _ _ _) as [col row]. simpl.
  destruct (col =? -1); [done|].
  apply not_eq_sym, Z.eqb_neq in Hlm, Hrm.
  by rewrite Hlm, Hrm, Z.eqb_refl.
Qed.

(** X21: a highlight never accumulates.  A tertiary click on a valid cell
    after an earlier tertiary click or hint gives the very state the later
    click alone gives, and a hint that finds a coordinate after an earlier
    tertiary click gives the state the hint alone gives. *)
Theorem later_highlight_overrides g now1 pos1 now2 x y :
  config.buttons_distinct (cfg g) →
  (pos_to_grid g x y).1 ≠ -1 →
  let middle := config.mouse_middle (cfg g) in
  handle_mouse (handle_mouse g now1 pos1 middle) now2 (x, y) middle
  = handle_mouse g now2 (x, y) middle
  ∧ handle_mouse (hint g now1) now2 (x, y) middle
    = handle_mouse g now2 (x, y) middle
  ∧ (is_Some (get_hint_coordinates (board g)) →
     hint (handle_mouse g now1 pos1 middle) now2 = hint g now2).
Proof.
  intros Hd Hv middle. subst middle.
  apply Z.eqb_neq in Hv.
  assert (∀ s u,
            handle_mouse (set_highlight_until_ms (set_highlight_targets g s) u)
              now2 (x, y) (config.mouse_middle (cfg g))
            = handle_mouse g now2 (x, y) (config.mouse_middle (cfg g))) as Hsame.
  { intros s u.
    pose proof (handle_mouse_middle
                  (set_highlight_until_ms (set_highlight_targets g s) u)
                  now2 (x, y) Hd) as H1.
    cbn [cfg set_highlight_until_ms set_highlight_targets] in H1.
    rewrite H1, (handle_mouse_middle g) by done.
    cbn [fst snd].
    rewrite (pos_to_grid_same g (set_highlight_until_ms _ _)) by done.
    by rewrite Hv. }
  rewrite (handle_mouse_middle g now1 pos1 Hd).
  split; [|split].
  - case_match; [done|apply Hsame].
  - unfold hint. case_match; [apply Hsame|done].
  - intros [p Hp].
    destruct ((pos_to_grid g pos1.1 pos1.2).1 =? -1); [done|].
    unfold hint, preview_neighbors. simpl. by rewrite Hp.
Qed.

(** X12: after a tertiary click on a valid cell at clock reading [now], a
    frame paints a cell in the highlight colour exactly when both clock
    readings of the draw are no later than [now] plus the highlight
    duration and the cell is an unrevealed neighbour of the clicked
    cell. *)
Theorem preview_shown_until_expiry g now x y t c r d :
  config.buttons_distinct (cfg g) →
  (pos_to_grid g x y).1 ≠ -1 →
  (c, r, d)
    ∈ frame_cells
        (draw (handle_mouse g now (x, y) (config.mouse_middle (cfg g))) t).2 →
  (painted_highlighted d = true
   ↔ at_cells t ≤ now + config.highlight_duration_ms (cfg g)
     ∧ at_expiry t ≤ now + config.highlight_duration_ms (cfg g)
     ∧ (c, r) ∈ neighbors (board g) (pos_to_grid g x y).1 (pos_to_grid g x y).2
     ∧ is_revealed (cell_state (board g) c r) = false).
Proof.
  intros Hd Hv Hin. apply Z.eqb_neq in Hv.
  rewrite handle_mouse_middle in Hin by done. simpl in Hin.
  rewrite Hv in Hin.
  apply painted_iff in Hin. rewrite Hin. simpl.
  rewrite elem_of_unrevealed_neighbors. simpl. tauto.
Qed.

Lemma difficulty_text_cols g t :
  header_difficulty (draw g t).2
  = if board_cols (board g) =? 9 then "EASY"
    else if board_cols (board g) =? 16 then "NORMAL" else "HARD".
Proof.
  simpl. unfold difficulty_text.
  by destruct (expire_highlight_fields g (at_expiry t)) as (_ & -> & _).
Qed.

(** X15: with a board that records the dimensions it is built with, the
    frame after key 1 is labelled EASY, after key 2 NORMAL and after key 3
    HARD; and a board of any column count other than 9 and 16 is labelled
    HARD. *)
Theorem difficulty_label `{!BoardDims Board} g now t :
  header_difficulty (draw (handle_key g now K_1) t).2 = "EASY"
  ∧ header_difficulty (draw (handle_key g now K_2) t).2 = "NORMAL"
  ∧ header_difficulty (draw (handle_key g now K_3) t).2 = "HARD"
  ∧ (∀ cols rows mines, cols ≠ 9 → cols ≠ 16 →
       header_difficulty (draw (set_difficulty g cols rows mines) t).2
       = "HARD").
Proof.
  split; [|split; [|split]].
  1-3: rewrite difficulty_text_cols; simpl; by rewrite Board_new_cols.
  intros cols rows mines H9 H16. rewrite difficulty_text_cols. simpl.
  rewrite Board_new_cols. apply Z.eqb_neq in H9, H16. by rewrite H9, H16.
Qed.

(** X23: with a board that records its dimensions and a positive cell
    size, a difficulty key makes the window and the board agree with the
    configured difficulty whatever the state was before, and they keep
    agreeing through everything that follows. *)
Theorem difficulty_key_restores_geometry `{!BoardDims Board} g now k acts :
  0 < config.cell_size (cfg g) →
  changes_config (Handle now (KEYDOWN k)) = true →
  consistent (run_actions (handle_key g now k) acts).
Proof.
  intros Hc Hk.
  assert (consistent (handle_key g now k)) as Hcons.
  { destruct k; try done; simpl;
      by apply consistent_reset, consistent_set_difficulty. }
  unfold run_actions. revert Hcons. generalize (handle_key g now k).
  induction acts as [|a acts IH]; intros h Hh; simpl; [done|].
  by apply IH, consistent_act.
Qed.

End Runs.

(** * Cell rectangles, markers and the time text *)

Section Geometry.

Context {Color : Type} {Board : Type} `{BM : BoardModel Board}.

Implicit Types (g : Game Board) (c : config.t) (pal : Palette Color).

Lemma cell_of_pixel (origin size k v : Z) :
  0 < size →
  (origin + k * size ≤ v < origin + k * size + size
   ↔ (v - origin) `div` size = k).
Proof.
  intros Hs. split.
  - intros Hv. symmetry.
    apply (Z.div_unique_pos _ _ _ (v - origin - k * size)); lia.
  - intros <-.
    pose proof (Z.mul_div_le (v - origin) size Hs).
    pose proof (Z.mul_succ_div_gt (v - origin) size Hs). lia.
Qed.

(** X17: drawing and clicking agree.  When the window and the board agree
    with the configured difficulty, every pixel covered by the rectangle
    [cell_rect] of a cell of the board is mapped by [pos_to_grid] to that
    cell; and whenever [pos_to_grid] returns a cell, the pixel lies in the
    rectangle of that cell. *)
Theorem cell_rect_round_trip g col row x y :
  consistent g →
  (0 ≤ col < board_cols (board g) →
   0 ≤ row < board_rows (board g) →
   rect_covers (cell_rect (cfg g) col row) (x, y) = true →
   pos_to_grid g x y = (col, row))
  ∧ (pos_to_grid g x y = (col, row) → col ≠ -1 →
     rect_covers (cell_rect (cfg g) col row) (x, y) = true).
Proof.
  intros ((Hcs & Hw & Hh) & Hbc & Hbr). split.
  - intros Hcol Hrow Hcov. unfold rect_covers, cell_rect in Hcov.
    simpl in Hcov.
    assert (config.margin_left (cfg g) + col * config.cell_size (cfg g) ≤ x
            < config.margin_left (cfg g) + col * config.cell_size (cfg g)
              + config.cell_size (cfg g)) as Hx by lia.
    assert (config.margin_top (cfg g) + row * config.cell_size (cfg g) ≤ y
            < config.margin_top (cfg g) + row * config.cell_size (cfg g)
              + config.cell_size (cfg g)) as Hy by lia.
    pose proof (proj1 (cell_of_pixel _ _ _ _ Hcs) Hx) as Hdx.
    pose proof (proj1 (cell_of_pixel _ _ _ _ Hcs) Hy) as Hdy.
    unfold pos_to_grid. rewrite Hdx, Hdy, Hw, Hh.
    assert (col * config.cell_size (cfg g) + config.cell_size (cfg g)
            ≤ config.cols (cfg g) * config.cell_size (cfg g)) by nia.
    assert (row * config.cell_size (cfg g) + config.cell_size (cfg g)
            ≤ config.rows (cfg g) * config.cell_size (cfg g)) by nia.
    assert (0 ≤ col * config.cell_size (cfg g)) by nia.
    assert (0 ≤ row * config.cell_size (cfg g)) by nia.
    repeat case_match; try done; lia.
  - intros Hp Hv.
    destruct (pos_to_grid_inv g x y) as [Hi|(Heq & _)].
    { rewrite Hi in Hp. injection Hp as <- <-. done. }
    rewrite Hp in Heq. injection Heq as Hc Hr.
    symmetry in Hc, Hr.
    apply (cell_of_pixel _ _ _ _ Hcs) in Hc, Hr.
    unfold rect_covers, cell_rect. simpl. lia.
Qed.

(** X18: when the window agrees with the configured difficulty, the
    rectangle of every cell of the grid lies between the margins of the
    window; and with a positive cell size the rectangles of two different
    cells share no pixel. *)
Theorem cell_rects_tile_the_field c col row :
  config.geometry_ok c →
  (0 ≤ col < config.cols c → 0 ≤ row < config.rows c →
   config.margin_left c ≤ rect_left (cell_rect c col row)
   ∧ rect_left (cell_rect c col row) + rect_width (cell_rect c col row)
     ≤ config.width c - config.margin_right c
   ∧ config.margin_top c ≤ rect_top (cell_rect c col row)
   ∧ rect_top (cell_rect c col row) + rect_height (cell_rect c col row)
     ≤ config.height c - config.margin_bottom c)
  ∧ (∀ col' row' p,
       rect_covers (cell_rect c col row) p = true →
       rect_covers (cell_rect c col' row') p = true →
       (col', row') = (col, row)).
Proof.
  intros (Hcs & Hw & Hh). split.
  - intros Hcol Hrow. simpl. rewrite Hw, Hh. nia.
  - intros col' row' [x y]. unfold rect_covers, cell_rect. simpl.
    intros H1 H2.
    assert ((x - config.margin_left c) `div` config.cell_size c = col)
      by (apply cell_of_pixel; lia).
    assert ((x - config.margin_left c) `div` config.cell_size c = col')
      by (apply cell_of_pixel; lia).
    assert ((y - config.margin_top c) `div` config.cell_size c = row)
      by (apply cell_of_pixel; lia).
    assert ((y - config.margin_top c) `div` config.cell_size c = row')
      by (apply cell_of_pixel; lia).
    congruence.
Qed.

(** X19: the markers stay inside their cell.  For every positive cell
    size the bounding square of the mine circle lies on pixels of the cell
    rectangle, and for every cell size of at least 13 so do the ends of the
    flag pole and the three vertices of the flag triangle. *)
Theorem markers_inside_cell pal c col row :
  (0 < config.cell_size c →
   ∀ p, p ∈ prim_points (mine_marker pal (cell_rect c col row)) →
        rect_covers (cell_rect c col row) p = true)
  ∧ (13 ≤ config.cell_size c →
     ∀ prim p, prim ∈ flag_marker pal (cell_rect c col row) →
               p ∈ prim_points prim →
               rect_covers (cell_rect c col row) p = true).
Proof.
  split.
  - intros Hcs p Hp. unfold mine_marker, rect_center, cell_rect in Hp.
    simpl in Hp. unfold rect_covers, cell_rect. simpl.
    pose proof (Z.quot_div_nonneg (config.cell_size c) 2) as Hq.
    rewrite Hq in Hp by lia.
    apply elem_of_cons in Hp as [->|Hp];
      [|apply list_elem_of_singleton in Hp as ->]; simpl;
      Z.div_mod_to_equations; lia.
  - intros Hcs prim p Hprim Hp. unfold flag_marker, cell_rect in Hprim.
    simpl in Hprim. unfold rect_covers, cell_rect. simpl.
    apply elem_of_cons in Hprim as [->|Hprim];
      [|apply list_elem_of_singleton in Hprim as ->]; simpl in Hp.
    + apply elem_of_cons in Hp as [->|Hp];
        [|apply list_elem_of_singleton in Hp as ->]; simpl;
        Z.div_mod_to_equations; lia.
    + apply elem_of_cons in Hp as [->|Hp];
        [|apply elem_of_cons in Hp as [->|Hp];
          [|apply list_elem_of_singleton in Hp as ->]]; simpl;
        Z.div_mod_to_equations; lia.
Qed.

(** X20: the draw calls of [draw_cell] are those of the picture the cell
    is classified as: a fill of the cell rectangle first, the marker of the
    picture next, the grid border last.  The fill is in the highlight
    colour when the picture is a highlighted one, and in the revealed or
    the hidden colour when it is not. *)
Theorem draw_cell_ops_paint_picture pal c (b : Board) col row highlighted :
  draw_cell_ops pal c b col row highlighted
  = paint_picture pal (cell_rect c col row) (draw_cell b col row highlighted)
  ∧ (∃ base marker,
       draw_cell_ops pal c b col row highlighted
       = FillRect base (cell_rect c col row) :: marker
         ++ [ Outline (color_grid pal) (cell_rect c col row) 1 ]
       ∧ (painted_highlighted (draw_cell b col row highlighted) = true →
          base = color_highlight pal)
       ∧ (painted_highlighted (draw_cell b col row highlighted) = false →
          base = color_cell_revealed pal ∨ base = color_cell_hidden pal)).
Proof.
  unfold draw_cell_ops, draw_cell, paint_picture.
  destruct (is_revealed (cell_state b col row)).
  - destruct (is_mine (cell_state b col row));
      [|destruct (0 <? adjacent (cell_state b col row))];
      (split; [done|]); eexists _, _; (split; [reflexivity|]);
      split; (done || by left).
  - destruct highlighted; (split; [done|]); eexists _, _;
      (split; [reflexivity|]); split; (done || by right).
Qed.

End Geometry.

Section TimeText.

Lemma length_pretty_N_go (x : N) (s : string) :
  (String.length s + (if decide (0 < x)%N then 1 else 0)
   + (if decide (10 ≤ x)%N then 1 else 0)
   ≤ String.length (pretty_N_go x s))%nat.
Proof.
  revert s. induction (N.lt_wf_0 x) as [x _ IH]; intros s.
  destruct (decide (0 < x)%N) as [Hpos|Hz].
  - rewrite pretty_N_go_step by done.
    assert (x `div` 10 < x)%N as Hlt by (apply N.div_lt; lia).
    specialize (IH _ Hlt (String (pretty_N_char (x `mod` 10)) s)).
    simpl in IH.
    destruct (decide (10 ≤ x)%N) as [H10|H10].
    + assert (0 < x `div` 10)%N.
      { apply N.div_str_pos. lia. }
      destruct (decide (0 < x `div` 10)%N); [|done].
      destruct (decide (10 ≤ x `div` 10)%N); lia.
    + destruct (decide (0 < x `div` 10)%N);
        destruct (decide (10 ≤ x `div` 10)%N); lia.
  - assert (x = 0%N) as -> by lia. rewrite pretty_N_go_0.
    destruct (decide (10 ≤ 0)%N); lia.
Qed.

Lemma length_pretty_Z_long (n : Z) :
  n < 0 ∨ 10 ≤ n → (2 ≤ String.length (pretty n))%nat.
Proof.
  intros Hn. destruct n as [|p|p]; [lia| |].
  - assert (10 ≤ N.pos p)%N as H10 by lia.
    unfold pretty, pretty_Z, pretty, pretty_positive, pretty, pretty_N.
    destruct (decide (N.pos p = 0)%N); [done|].
    pose proof (length_pretty_N_go (N.pos p) "") as Hl.
    destruct (decide (0 < N.pos p)%N); [|lia].
    destruct (decide (10 ≤ N.pos p)%N); [|lia]. simpl in Hl. lia.
  - unfold pretty, pretty_Z, pretty, pretty_positive, pretty, pretty_N.
    destruct (decide (N.pos p = 0)%N); [done|].
    pose proof (length_pretty_N_go (N.pos p) "") as Hl.
    destruct (decide (0 < N.pos p)%N); [|lia].
    change (2 ≤ S (String.length (pretty_N_go (N.pos p) "")))%nat.
    simpl in Hl. destruct (decide (10 ≤ N.pos p)%N); lia.
Qed.

Lemma format_02d_below_100 (n : Z) :
  0 ≤ n < 100 → String.length (format_02d n) = 2%nat.
Proof.
  intros Hn.
  assert (forallb (λ k, String.length (format_02d k) =? 2)%nat (seqZ 0 100)
          = true) as Hall by by vm_compute.
  rewrite forallb_forall in Hall. apply Nat.eqb_eq, Hall.
  apply list_elem_of_In, elem_of_seqZ. lia.
Qed.

Lemma format_02d_digit (n : Z) :
  0 ≤ n < 10 → format_02d n = "0" +:+ pretty n.
Proof.
  intros Hn.
  assert (forallb (λ k, String.eqb (format_02d k) ("0" +:+ pretty k))
                  (seqZ 0 10) = true) as Hall by by vm_compute.
  rewrite forallb_forall in Hall. apply String.eqb_eq, Hall.
  apply list_elem_of_In, elem_of_seqZ. lia.
Qed.

(** X16: the two-digit fields of the time text.  [format_02d] puts one
    zero in front of the numbers 0 to 9 and leaves every other number as
    its plain numeral, so it never cuts digits off.  In [_format_time] the
    seconds field is always two characters with a value from 0 to 59, the
    minutes field is two characters below 100 minutes and the plain, longer
    numeral from 100 minutes on, and minutes and seconds add up to the
    whole seconds shown in parentheses. *)
Theorem format_time_fields (ms n : Z) :
  (0 ≤ n < 10 → format_02d n = "0" +:+ pretty n)
  ∧ (n < 0 ∨ 10 ≤ n → format_02d n = pretty n)
  ∧ _format_time ms
    = format_02d ((ms `div` 1000) `div` 60) +:+ ":"
      +:+ format_02d ((ms `div` 1000) `mod` 60)
      +:+ " (" +:+ pretty (ms `div` 1000) +:+ "s)"
  ∧ String.length (format_02d ((ms `div` 1000) `mod` 60)) = 2%nat
  ∧ 0 ≤ (ms `div` 1000) `mod` 60 < 60
  ∧ 60 * ((ms `div` 1000) `div` 60) + (ms `div` 1000) `mod` 60 = ms `div` 1000
  ∧ (0 ≤ ms < 6000000 →
     String.length (format_02d ((ms `div` 1000) `div` 60)) = 2%nat)
  ∧ (6000000 ≤ ms →
     format_02d ((ms `div` 1000) `div` 60) = pretty ((ms `div` 1000) `div` 60)
     ∧ (3 ≤ String.length (format_02d ((ms `div` 1000) `div` 60)))%nat).
Proof.
  assert (∀ k, k < 0 ∨ 10 ≤ k → format_02d k = pretty k) as Hlong.
  { intros k Hk. unfold format_02d.
    pose proof (length_pretty_Z_long k Hk) as Hl.
    destruct (String.length (pretty k) <? 2)%nat eqn:Hlt; [|done].
    apply Nat.ltb_lt in Hlt. lia. }
  split; [apply format_02d_digit|]. split; [apply Hlong|].
  split; [done|].
  pose proof (Z.mod_pos_bound (ms `div` 1000) 60) as Hmod.
  split; [apply format_02d_below_100; lia|].
  split; [lia|].
  split; [pose proof (Z.div_mod (ms `div` 1000) 60); lia|].
  split.
  - intros Hms. apply format_02d_below_100.
    split; [apply Z.div_pos; [apply Z.div_pos|]; lia|].
    apply Z.div_lt_upper_bound; [lia|].
    apply Z.div_lt_upper_bound; lia.
  - intros Hms.
    assert (100 ≤ (ms `div` 1000) `div` 60) as H100.
    { apply Z.div_le_lower_bound; [lia|].
      apply Z.div_le_lower_bound; lia. }
    rewrite Hlong by lia. split; [done|].
    destruct ((ms `div` 1000) `div` 60) as [|p|p] eqn:Hp; [lia| |lia].
    unfold pretty, pretty_Z, pretty, pretty_positive, pretty, pretty_N.
    destruct (decide (N.pos p = 0)%N); [done|].
    rewrite pretty_N_go_step by lia.
    pose proof (length_pretty_N_go (N.pos p `div` 10)
                  (String (pretty_N_char (N.pos p `mod` 10)) "")) as Hl.
    assert (10 ≤ N.pos p `div` 10)%N.
    { apply N.div_le_lower_bound; lia. }
    destruct (decide (0 < N.pos p `div` 10)%N); [|lia].
    destruct (decide (10 ≤ N.pos p `div` 10)%N); [|lia].
    simpl in Hl. lia.
Qed.

End TimeText.

(** * The further properties on the sample board *)

(** The fresh sample game has not started. *)
Lemma elapsed_zero_until_started_witness :
  _elapsed_ms sample.fresh 5000 = 0
  ∧ header_time (draw sample.fresh (scenario.ticks 5000)).2 = "00:00 (0s)".
Proof.
  exact (elapsed_zero_until_started sample.fresh eq_refl 5000
           (scenario.ticks 5000)).
Defined.

(** The lost run reads the clock at 100, 120, ... 138. *)
Lemma elapsed_never_negative_witness :
  0 ≤ _elapsed_ms (run_actions sample.fresh scenario.lost_run) 200.
Proof.
  apply (elapsed_never_negative (Board := sample.board) sample.easy
           scenario.lost_run 200); [reflexivity|by vm_compute].
Defined.

(** A reset while a preview is shown. *)
Lemma fresh_session_frame_witness :
  (draw (reset sample.previewing) (scenario.ticks 0)).1 = reset sample.previewing
  ∧ Forall (λ cell, painted_highlighted cell.2 = false)
           (frame_cells (draw (reset sample.previewing) (scenario.ticks 0)).2)
  ∧ header_time (draw (reset sample.previewing) (scenario.ticks 0)).2
    = "00:00 (0s)".
Proof.
  apply (fresh_session_frame sample.previewing (scenario.ticks 0)).
  left. reflexivity.
Defined.

(** The first primary click changes the clock. *)
Lemma clock_changes_only_by_witness :
  changes_clock sample.fresh (Handle 100 (MOUSEBUTTONDOWN (40, 80) 1)) = true.
Proof.
  apply (clock_changes_only_by sample.fresh). by vm_compute.
Defined.

(** A secondary click changes the board. *)
Lemma board_changes_only_by_witness :
  changes_board sample.fresh (Handle 50 (MOUSEBUTTONDOWN (8, 48) 3)) = true.
Proof.
  apply (board_changes_only_by sample.fresh). by vm_compute.
Defined.

(** The loop ends in the quitting frame; the frame after it is not run. *)
Lemma main_loop_stops_at_quit_witness :
  main_loop sample.fresh
    ([ scenario.losing_frame ] ++ scenario.quitting_frame
       :: [ scenario.normal_frame ])
  = main_loop sample.fresh ([ scenario.losing_frame ] ++ [ scenario.quitting_frame ]).
Proof.
  apply (main_loop_stops_at_quit sample.fresh [ scenario.losing_frame ]
           scenario.quitting_frame [ scenario.normal_frame ]);
    reflexivity.
Defined.

(** The cell (0, 0) while the preview around (1, 1) is shown. *)
Lemma highlight_painted_iff_witness :
  painted_highlighted (HiddenCell true false) = true
  ↔ 1000 ≤ highlight_until_ms sample.previewing
    ∧ 1000 ≤ highlight_until_ms sample.previewing
    ∧ (0, 0) ∈ highlight_targets sample.previewing
    ∧ is_revealed (cell_state (board sample.previewing) 0 0) = false.
Proof.
  apply (highlight_painted_iff sample.previewing (scenario.ticks 1000) 0 0).
  apply elem_of_draw_cells. by vm_compute.
Defined.

(** The same cell, from the tertiary click on. *)
Lemma preview_shown_until_expiry_witness :
  painted_highlighted (HiddenCell true false) = true
  ↔ 1000 ≤ 100 + 1500
    ∧ 1000 ≤ 100 + 1500
    ∧ (0, 0) ∈ neighbors (board sample.fresh) 1 1
    ∧ is_revealed (cell_state (board sample.fresh) 0 0) = false.
Proof.
  refine (preview_shown_until_expiry sample.fresh 100 40 80
            (scenario.ticks 1000) 0 0 (HiddenCell true false)
            sample_buttons_distinct _ _); [by vm_compute|].
  apply elem_of_draw_cells. by vm_compute.
Defined.

(** The labels of the three difficulty keys on the sample board. *)
Lemma difficulty_label_witness :
  header_difficulty
    (draw (handle_key sample.fresh 0 K_1) (scenario.ticks 1)).2 = "EASY"
  ∧ header_difficulty
      (draw (handle_key sample.fresh 0 K_2) (scenario.ticks 1)).2 = "NORMAL"
  ∧ header_difficulty
      (draw (handle_key sample.fresh 0 K_3) (scenario.ticks 1)).2 = "HARD".
Proof.
  destruct (difficulty_label (Board := sample.board) sample.fresh 0
              (scenario.ticks 1)) as (H1 & H2 & H3 & _).
  split; [exact H1|]. split; [exact H2|exact H3].
Defined.

(** The pixel (40, 80) and the cell (1, 1) of the EASY board. *)
Lemma cell_rect_round_trip_witness :
  pos_to_grid sample.fresh 40 80 = (1, 1)
  ∧ rect_covers (cell_rect sample.easy 1 1) (40, 80) = true.
Proof.
  destruct (cell_rect_round_trip sample.fresh 1 1 40 80 sample_consistent)
    as [Hto Hfrom].
  split.
  - apply Hto; by vm_compute.
  - apply Hfrom; by vm_compute.
Defined.

(** The last cell of the EASY grid ends at the right and bottom margins. *)
Lemma cell_rects_tile_the_field_witness :
  rect_left (cell_rect sample.easy 8 8) + rect_width (cell_rect sample.easy 8 8)
  ≤ config.width sample.easy - config.margin_right sample.easy
  ∧ rect_top (cell_rect sample.easy 8 8) + rect_height (cell_rect sample.easy 8 8)
    ≤ config.height sample.easy - config.margin_bottom sample.easy.
Proof.
  assert (config.geometry_ok sample.easy) as Hgeo by by repeat split.
  destruct (cell_rects_tile_the_field sample.easy 8 8 Hgeo) as [Hin _].
  destruct Hin as (_ & Hx & _ & Hy); [by vm_compute|by vm_compute|].
  split; [exact Hx|exact Hy].
Defined.

(** A second preview, and a preview after a hint. *)
Lemma later_highlight_overrides_witness :
  handle_mouse (handle_mouse sample.fresh 100 (72, 112) 2) 300 (40, 80) 2
  = handle_mouse sample.fresh 300 (40, 80) 2
  ∧ handle_mouse (hint sample.fresh 100) 300 (40, 80) 2
    = handle_mouse sample.fresh 300 (40, 80) 2.
Proof.
  destruct (later_highlight_overrides sample.fresh 100 (72, 112) 300 40 80
              sample_buttons_distinct) as (H1 & H2 & _); [by vm_compute|].
  split; [exact H1|exact H2].
Defined.

(** The frame in which the sample game is lost shows 20 ms elapsed. *)
Lemma ending_frame_shows_frozen_time_witness :
  ∃ g' f,
    run_step sample.fresh scenario.losing_frame = (true, g', Some f)
    ∧ end_ticks_ms g' = 120
    ∧ header_time f = _format_time (120 - 100)
    ∧ ∀ now, _elapsed_ms g' now = 120 - 100.
Proof.
  apply (ending_frame_shows_frozen_time sample.fresh scenario.losing_frame
           sample.lost); [reflexivity|by vm_compute|by vm_compute].
Defined.

(** Key 3 on the sample board, followed by what may follow. *)
Lemma difficulty_key_restores_geometry_witness :
  consistent (run_actions (handle_key sample.fresh 0 K_3) sample.later).
Proof.
  apply (difficulty_key_restores_geometry (Board := sample.board)
           sample.fresh 0 K_3 sample.later); [by vm_compute|reflexivity].
Defined.

